(** * Thesis structure analysis (app.py): segmentation and validators

    A shallow embedding of the analysis core of [app.py]: the segmenter
    [dividir_secciones], the validators [revisar_estructura],
    [revisar_subsecciones], [revisar_contenido], [revisar_metodologia], the
    aggregation [analizar_texto] and the three lists that the [uploader]
    handler hands to its template.

    Python strings are sequences of Unicode code points, so a [str] is a list
    of code points.  The parts of the Python runtime that the code calls
    ([str.strip], [str.lower], [str.split], [str.capitalize], the [in]
    operator, [re.search], [re.sub], [dict]) are modelled in the first half of
    the file; the program itself starts at [Module App]. *)

From Stdlib Require Import String Ascii NArith Arith Bool List Lia.
Import ListNotations.

Local Open Scope N_scope.

(* ================================================================== *)
(** ** Python strings *)

Module Py.

Definition char := N.
Definition str := list char.

Definition LF : char := 10.
Definition SP : char := 32.

Definition str_eqb (a b : str) : bool :=
  if list_eq_dec N.eq_dec a b then true else false.

(** Decoding of a UTF-8 literal of this file into code points; this is how
    the string constants of [app.py] are written below. *)
Fixpoint utf8 (bs : list N) : str :=
  match bs with
  | [] => []
  | b0 :: t0 =>
      if b0 <? 0x80 then b0 :: utf8 t0
      else match t0 with
      | [] => [b0]
      | b1 :: t1 =>
          if b0 <? 0xE0 then ((b0 - 0xC0) * 64 + (b1 - 0x80)) :: utf8 t1
          else match t1 with
          | [] => [b0]
          | b2 :: t2 =>
              if b0 <? 0xF0
              then ((b0 - 0xE0) * 4096 + (b1 - 0x80) * 64 + (b2 - 0x80)) :: utf8 t2
              else match t2 with
              | [] => [b0]
              | b3 :: t3 =>
                  ((b0 - 0xF0) * 262144 + (b1 - 0x80) * 4096
                   + (b2 - 0x80) * 64 + (b3 - 0x80)) :: utf8 t3
              end
          end
      end
  end.

Definition u (s : string) : str :=
  utf8 (map (fun a => N_of_ascii a) (list_ascii_of_string s)).

(** *** Character classes of the Unicode database

    [str.strip()] and [str.split()] use [Py_UNICODE_ISSPACE]; the list below
    is the whole of it.  [\w] and [\b] of [re] use [str.isalnum] or [_];
    [str.lower] and [str.capitalize] use the case mappings.  The last three
    are tabulated for Basic Latin, Latin-1 Supplement and Latin Extended-A
    (U+0000 to U+017F), the repertoire of the Spanish text the program is
    written for; a code point above U+017F is taken as caseless and as no
    word character. *)

Definition between (lo hi c : char) : bool := (lo <=? c) && (c <=? hi).

Definition isspace (c : char) : bool :=
  between 0x09 0x0D c || between 0x1C 0x20 c || (c =? 0x85) || (c =? 0xA0)
  || (c =? 0x1680) || between 0x2000 0x200A c || between 0x2028 0x2029 c
  || (c =? 0x202F) || (c =? 0x205F) || (c =? 0x3000).

Definition isalnum (c : char) : bool :=
  between 0x30 0x39 c || between 0x41 0x5A c || between 0x61 0x7A c
  || (c =? 0xAA) || between 0xB2 0xB3 c || (c =? 0xB5) || between 0xB9 0xBA c
  || between 0xBC 0xBE c || between 0xC0 0xD6 c || between 0xD8 0xF6 c
  || between 0xF8 0x17F c.

(** [\w] of a [str] pattern. *)
Definition isword (c : char) : bool := isalnum c || (c =? 0x5F).

Definition lower_char (c : char) : str :=
  if between 0x41 0x5A c then [c + 32]
  else if between 0xC0 0xDE c && negb (c =? 0xD7) then [c + 32]
  else if c =? 0x130 then [0x69; 0x307]
  else if c =? 0x178 then [0xFF]
  else if (between 0x100 0x12F c || between 0x132 0x137 c
           || between 0x14A 0x177 c) && N.even c then [c + 1]
  else if (between 0x139 0x148 c || between 0x179 0x17E c) && N.odd c
  then [c + 1]
  else [c].

(** Title case of one character (what [str.capitalize] applies to the first
    character). *)
Definition title_char (c : char) : str :=
  if between 0x61 0x7A c then [c - 32]
  else if c =? 0xB5 then [0x39C]
  else if c =? 0xDF then [0x53; 0x73]
  else if between 0xE0 0xFE c && negb (c =? 0xF7) then [c - 32]
  else if c =? 0xFF then [0x178]
  else if c =? 0x131 then [0x49]
  else if c =? 0x149 then [0x2BC; 0x4E]
  else if c =? 0x17F then [0x53]
  else if (between 0x100 0x12F c || between 0x132 0x137 c
           || between 0x14A 0x177 c) && N.odd c then [c - 1]
  else if (between 0x139 0x148 c || between 0x179 0x17E c) && N.even c
  then [c - 1]
  else [c].

(** [s.lower()] *)
Definition lower (s : str) : str := flat_map lower_char s.

(** [s.capitalize()] *)
Definition capitalize (s : str) : str :=
  match s with
  | [] => []
  | c :: rest => title_char c ++ lower rest
  end.

(** [s.lstrip()], [s.rstrip()], [s.strip()] *)
Fixpoint lstrip (s : str) : str :=
  match s with
  | c :: rest => if isspace c then lstrip rest else s
  | [] => []
  end.

Definition rstrip (s : str) : str := rev (lstrip (rev s)).

Definition strip (s : str) : str := rstrip (lstrip s).

(** [s.split(sep)] for a separator of one character: the pieces between the
    occurrences of [sep]; never the empty list. *)
Fixpoint split_on (sep : char) (s : str) : list str :=
  match s with
  | [] => [[]]
  | c :: rest =>
      if c =? sep then [] :: split_on sep rest
      else match split_on sep rest with
           | piece :: pieces => (c :: piece) :: pieces
           | [] => [[c]]
           end
  end.

(** [s.split()]: the maximal runs of characters that are not whitespace.
    [word] holds the run being read, in reverse. *)
Fixpoint split_ws_aux (word : str) (s : str) : list str :=
  match s with
  | [] => match word with [] => [] | _ => [rev word] end
  | c :: rest =>
      if isspace c
      then match word with
           | [] => split_ws_aux [] rest
           | _ => rev word :: split_ws_aux [] rest
           end
      else split_ws_aux (c :: word) rest
  end.

Definition split_ws (s : str) : list str := split_ws_aux [] s.

(** [sep.join(parts)] *)
Fixpoint join (sep : str) (parts : list str) : str :=
  match parts with
  | [] => []
  | [p] => p
  | p :: ps => p ++ sep ++ join sep ps
  end.

(** [sub in s] on strings. *)
Fixpoint startswith (sub s : str) : bool :=
  match sub, s with
  | [], _ => true
  | a :: sub', b :: s' => (a =? b) && startswith sub' s'
  | _ :: _, [] => false
  end.

Fixpoint contains (sub s : str) : bool :=
  startswith sub s
  || match s with
     | [] => false
     | _ :: s' => contains sub s'
     end.

(** Truth value of a string: the empty string is false. *)
Definition truthy (s : str) : bool :=
  match s with [] => false | _ :: _ => true end.

End Py.

(* ================================================================== *)
(** ** Exceptions *)

Module Exn.

Inductive exn : Type :=
| ReError (pattern : Py.str).   (* [re.error]: the pattern does not compile *)

Inductive result (A : Type) : Type :=
| Ok (a : A)
| Raise (e : exn).

Arguments Ok {A} a.
Arguments Raise {A} e.

Definition bind {A B : Type} (c : result A) (k : A -> result B) : result B :=
  match c with
  | Ok a => k a
  | Raise e => Raise e
  end.

Definition returns {A : Type} (c : result A) : Prop := exists a, c = Ok a.

End Exn.

Notation "x <- c ;; k" := (Exn.bind c (fun x => k))
  (at level 61, c at next level, right associativity).

(* ================================================================== *)
(** ** The regular expressions of [re]

    The fragment of the pattern language that [app.py] writes: literal
    characters, the escapes [\b] and [\n] (and escaped punctuation), [.],
    character sets with ranges and negation, groups and the greedy star.
    Patterns are compiled from their text, as [re.search] and [re.sub] do on
    each call; a pattern outside the fragment does not compile here. *)

Module Re.
Import Py Exn.

Inductive item : Type :=
| One (c : char)
| Range (lo hi : char).

Inductive regex : Type :=
| Eps
| Chr (c : char)
| Any                                  (* [.]: anything but a line feed *)
| Cls (negated : bool) (items : list item)
| WordB                                (* [\b] *)
| Seq (r1 r2 : regex)
| Star (r : regex)
| Group (r : regex).

Definition ch (s : string) : char :=
  match u s with c :: _ => c | [] => 0 end.

Definition ascii_alnum (c : char) : bool :=
  between 0x30 0x39 c || between 0x41 0x5A c || between 0x61 0x7A c.

(** The character that [\c] stands for, inside or outside a set. *)
Definition escape_char (c : char) : option char :=
  if c =? ch "n" then Some LF
  else if c =? ch "t" then Some 9
  else if c =? ch "r" then Some 13
  else if ascii_alnum c then None
  else Some c.

(** One member character of a set, escaped or not. *)
Definition class_char (s : str) : option (char * str) :=
  match s with
  | [] => None
  | c :: rest =>
      if c =? ch "\" then
        match rest with
        | e :: rest' =>
            match escape_char e with
            | Some x => Some (x, rest')
            | None => None
            end
        | [] => None
        end
      else Some (c, rest)
  end.

(** The members of a set up to its closing bracket; a bracket that comes
    first is a member. *)
Fixpoint parse_items (fuel : nat) (s : str) (acc : list item)
  : option (list item * str) :=
  match fuel with
  | O => None
  | S fuel' =>
      match s with
      | [] => None
      | c :: rest =>
          if (c =? ch "]") && negb (Nat.eqb (length acc) 0)
          then Some (rev acc, rest)
          else
            match class_char s with
            | None => None
            | Some (lo, rest1) =>
                match rest1 with
                | d :: rest2 =>
                    if (d =? ch "-")
                       && negb (match rest2 with
                                | e :: _ => e =? ch "]"
                                | [] => true
                                end)
                    then
                      match class_char rest2 with
                      | Some (hi, rest3) =>
                          if lo <=? hi
                          then parse_items fuel' rest3 (Range lo hi :: acc)
                          else None
                      | None => None
                      end
                    else parse_items fuel' rest1 (One lo :: acc)
                | [] => None
                end
            end
      end
  end.

Definition is_operator (c : char) : bool :=
  (c =? ch "*") || (c =? ch "+") || (c =? ch "?") || (c =? ch "{")
  || (c =? ch "|") || (c =? ch "^") || (c =? ch "$").

(** A sequence of pieces up to the end of the pattern or to a closing
    parenthesis, which is left in place. *)
Fixpoint parse_seq (fuel : nat) (s : str) : option (regex * str) :=
  match fuel with
  | O => None
  | S fuel' =>
      match s with
      | [] => Some (Eps, [])
      | c :: rest =>
          if c =? ch ")" then Some (Eps, s)
          else
            let atom :=
              if c =? ch "(" then
                match parse_seq fuel' rest with
                | Some (r, d :: rest') =>
                    if d =? ch ")" then Some (Group r, rest') else None
                | _ => None
                end
              else if c =? ch "[" then
                match rest with
                | d :: rest' =>
                    let neg := d =? ch "^" in
                    match parse_items fuel' (if neg then rest' else rest) [] with
                    | Some (items, rest'') => Some (Cls neg items, rest'')
                    | None => None
                    end
                | [] => None
                end
              else if c =? ch "." then Some (Any, rest)
              else if c =? ch "\" then
                match rest with
                | e :: rest' =>
                    if e =? ch "b" then Some (WordB, rest')
                    else match escape_char e with
                         | Some x => Some (Chr x, rest')
                         | None => None
                         end
                | [] => None
                end
              else if is_operator c then None
              else Some (Chr c, rest)
            in
            match atom with
            | None => None
            | Some (a, rest1) =>
                let '(piece, rest2) :=
                  match rest1 with
                  | q :: rest2 => if q =? ch "*" then (Star a, rest2) else (a, rest1)
                  | [] => (a, rest1)
                  end in
                match rest2 with
                | q :: _ =>
                    if is_operator q then None
                    else match parse_seq fuel' rest2 with
                         | Some (r, rest3) => Some (Seq piece r, rest3)
                         | None => None
                         end
                | [] => Some (Seq piece Eps, [])
                end
            end
      end
  end.

Definition compile (pattern : str) : option regex :=
  match parse_seq (S (length pattern)) pattern with
  | Some (r, []) => Some r
  | _ => None
  end.

(** *** Matching

    The backtracking matcher: [rmatch r prev s k] matches [r] at the head of
    [s], the character before it being [prev], and hands what is left to the
    continuation [k]; alternatives are tried in the order of [re] (a star
    takes one more round before it stops). *)

Definition in_item (c : char) (i : item) : bool :=
  match i with
  | One d => c =? d
  | Range lo hi => between lo hi c
  end.

Definition in_class (negated : bool) (items : list item) (c : char) : bool :=
  xorb negated (existsb (in_item c) items).

(** [\b]: exactly one of the characters on the two sides is a word
    character. *)
Definition at_boundary (prev : option char) (s : str) : bool :=
  xorb (match prev with Some c => isword c | None => false end)
       (match s with c :: _ => isword c | [] => false end).

Definition orelse {A : Type} (a b : option A) : option A :=
  match a with
  | Some x => Some x
  | None => b
  end.

(** The rounds of a star whose body is matched by [body]: one more round
    when it consumes something, else on with [k].  [fuel] bounds the rounds
    by the length of the text. *)
Fixpoint star_rounds {A : Type}
  (body : option char -> str -> (option char -> str -> option A) -> option A)
  (k : option char -> str -> option A)
  (fuel : nat) (prev : option char) (s : str) : option A :=
  match fuel with
  | O => k prev s
  | S fuel' =>
      orelse
        (body prev s
           (fun p t =>
              if Nat.ltb (length t) (length s)
              then star_rounds body k fuel' p t else None))
        (k prev s)
  end.

Fixpoint rmatch {A : Type} (r : regex) (prev : option char) (s : str)
  (k : option char -> str -> option A) {struct r} : option A :=
  match r with
  | Eps => k prev s
  | Chr c =>
      match s with
      | d :: s' => if c =? d then k (Some d) s' else None
      | [] => None
      end
  | Any =>
      match s with
      | d :: s' => if d =? LF then None else k (Some d) s'
      | [] => None
      end
  | Cls negated items =>
      match s with
      | d :: s' => if in_class negated items d then k (Some d) s' else None
      | [] => None
      end
  | WordB => if at_boundary prev s then k prev s else None
  | Seq r1 r2 => rmatch r1 prev s (fun p t => rmatch r2 p t k)
  | Group r1 => rmatch r1 prev s k
  | Star r1 => star_rounds (rmatch r1) k (length s) prev s
  end.

(** The first position, from the left, at which the pattern matches. *)
Fixpoint search_from (r : regex) (prev : option char) (s : str) : bool :=
  match rmatch r prev s (fun _ _ => Some tt) with
  | Some _ => true
  | None =>
      match s with
      | [] => false
      | c :: s' => search_from r (Some c) s'
      end
  end.

(** [re.search(pattern, s)] as the program uses it: for its truth value. *)
Definition search (pattern s : str) : result bool :=
  match compile pattern with
  | Some r => Ok (search_from r None s)
  | None => Raise (ReError pattern)
  end.

(** The substitution loop of [re.sub]: at each position the match found
    there, if any, is replaced; after an empty match the next character is
    copied. *)
Fixpoint sub_from (fuel : nat) (r : regex) (repl : str) (prev : option char)
  (s : str) : str :=
  match fuel with
  | O => s
  | S fuel' =>
      match rmatch r prev s (fun p t => Some (p, t)) with
      | Some (p, t) =>
          if Nat.ltb (length t) (length s)
          then repl ++ sub_from fuel' r repl p t
          else match s with
               | [] => repl
               | c :: s' => repl ++ c :: sub_from fuel' r repl (Some c) s'
               end
      | None =>
          match s with
          | [] => []
          | c :: s' => c :: sub_from fuel' r repl (Some c) s'
          end
      end
  end.

(** [re.sub(pattern, repl, s)] *)
Definition sub (pattern repl s : str) : result str :=
  match compile pattern with
  | Some r => Ok (sub_from (S (length s)) r repl None s)
  | None => Raise (ReError pattern)
  end.

End Re.

(* ================================================================== *)
(** ** Python dictionaries with string keys

    A [dict] keeps its keys in the order of their first insertion; assigning
    to a key that is present replaces its value in place. *)

Module Dict.
Import Py.

Definition dict := list (str * str).

(** [d[k] = v] *)
Fixpoint set (k v : str) (d : dict) : dict :=
  match d with
  | [] => [(k, v)]
  | (k', v') :: d' =>
      if str_eqb k k' then (k', v) :: d' else (k', v') :: set k v d'
  end.

(** [d.get(k, default)] *)
Fixpoint get (k default : str) (d : dict) : str :=
  match d with
  | [] => default
  | (k', v') :: d' => if str_eqb k k' then v' else get k default d'
  end.

(** [k in d] *)
Fixpoint has (k : str) (d : dict) : bool :=
  match d with
  | [] => false
  | (k', _) :: d' => str_eqb k k' || has k d'
  end.


End Dict.

(* ================================================================== *)
(** ** The program *)

Module App.
Import Py Exn Dict.

Definition ESTRUCTURA_ESPERADA : list str :=
  [ u "resumen";
    u "índice";
    u "introducción";
    u "marco teórico";
    u "metodología";
    u "resultados";
    u "conclusiones";
    u "referencias bibliográficas";
    u "anexos" ].

Definition SUB_SECCIONES_ESPERADAS : list (str * list str) :=
  [ (u "marco teórico",
     [ u "revisión de la literatura";
       u "teorías relacionadas";
       u "tabla de operacionalización de variables" ]);
    (u "metodología",
     [ u "diseño de investigación";
       u "objetivos generales";
       u "objetivos específicos" ]) ].

(** *** [dividir_secciones] *)

Definition patrones : list str :=
  [ u "\bResumen\b";
    u "\bÍndice\b";
    u "\bIntroducción\b";
    u "\bMarco[^\n]*Te[oó]rico\b";
    u "\bMetodolog[ií]a\b";
    u "\bResultados\b";
    u "\bConclusiones\b";
    u "\bReferencias\b";
    u "\bAnexos\b";
    u "\bOperacionalizaci[oó]n de Variables\b" ].

Definition tabla_patron : str :=
  u "(variable.*dimensiones.*indicadores.*unidad de medida)".

Definition no_letra : str := u "[^a-zA-Záéíóúüñ]".

Definition OPERACIONALIZACION : str := u "operacionalización de variables".

(** The local variables of the scan. *)
Record scan : Type := Scan {
  secciones : dict;
  current_section : option str;     (* [None] until the first heading *)
  current_content : list str
}.

Definition inicio : scan := Scan [] None [].

(** [if current_section:] is false for [None] and for the empty string. *)
Definition abierta (cs : option str) : bool :=
  match cs with
  | Some s => truthy s
  | None => false
  end.

(** [if current_section: secciones[current_section] = "\n".join(current_content).strip()] *)
Definition guardar (st : scan) : dict :=
  match current_section st with
  | Some s =>
      if truthy s
      then Dict.set s (strip (join [LF] (current_content st))) (secciones st)
      else secciones st
  | None => secciones st
  end.

(** The loop over [patrones], left at the first pattern found in the line;
    the boolean is [matched]. *)
Fixpoint buscar_titulo (ps : list str) (line : str) (st : scan)
  : result (scan * bool) :=
  match ps with
  | [] => Ok (st, false)
  | patron :: ps' =>
      hit <- Re.search (lower patron) line ;;
      if hit : bool then
        let secs := guardar st in
        name <- Re.sub no_letra [SP] line ;;
        Ok (Scan secs (Some name) [], true)
      else buscar_titulo ps' line st
  end.

(** The body of the loop over the lines of the text. *)
Definition paso (st : scan) (raw : str) : result scan :=
  let line := lower (strip raw) in
  r <- buscar_titulo patrones line st ;;
  let '(st1, matched) := r in
  tabla <- Re.search tabla_patron line ;;
  let '(st2, matched2) :=
    if tabla : bool
    then (Scan (secciones st1) (Some OPERACIONALIZACION)
               (current_content st1 ++ [line]), true)
    else (st1, matched) in
  if negb matched2 && abierta (current_section st2)
  then Ok (Scan (secciones st2) (current_section st2)
                (current_content st2 ++ [line]))
  else Ok st2.

Fixpoint recorrer (lines : list str) (st : scan) : result scan :=
  match lines with
  | [] => Ok st
  | raw :: rest => st' <- paso st raw ;; recorrer rest st'
  end.

Definition dividir_secciones (texto : str) : result dict :=
  st <- recorrer (split_on LF texto) inicio ;;
  Ok (guardar st).

(** *** The validators *)

Definition falta_seccion (seccion : str) : str :=
  u "Falta la sección: " ++ capitalize seccion ++ u ".".

Definition revisar_estructura (secciones : dict) : list str :=
  fold_left
    (fun observaciones seccion =>
       if negb (Dict.has seccion secciones)
       then observaciones ++ [falta_seccion seccion]
       else observaciones)
    ESTRUCTURA_ESPERADA [].

Definition TABLA : str := u "tabla de operacionalización de variables".

Definition falta_subseccion (sub seccion : str) : str :=
  u "Falta la subsección: '" ++ sub ++ u "' en la sección "
  ++ capitalize seccion ++ u ".".

Definition revisar_subsecciones (secciones : dict) : list str :=
  fold_left
    (fun observaciones (entry : str * list str) =>
       let '(seccion, subsecciones) := entry in
       let contenido := Dict.get seccion [] secciones in
       fold_left
         (fun observaciones sub =>
            if str_eqb sub TABLA && Dict.has OPERACIONALIZACION secciones
            then observaciones
            else if negb (contains sub contenido)
            then observaciones ++ [falta_subseccion sub seccion]
            else observaciones)
         subsecciones observaciones)
    SUB_SECCIONES_ESPERADAS [].

Definition INTRODUCCION_CORTA : str :=
  u "La sección de Introducción parece demasiado corta.".

Definition revisar_contenido (secciones : dict) : list str :=
  let introduccion := Dict.get (u "introducción") [] secciones in
  if Nat.ltb (length (split_ws introduccion)) 100
  then [INTRODUCCION_CORTA]
  else [].

Definition FALTA_DISENO : str :=
  u "Falta la descripción del diseño de investigación.".

Definition FALTAN_OBJETIVOS : str :=
  u "Faltan los objetivos generales o específicos.".

Definition revisar_metodologia (secciones : dict) : list str :=
  let metodologia := Dict.get (u "metodología") [] secciones in
  let observaciones :=
    if negb (contains (u "diseño de investigación") metodologia)
    then [FALTA_DISENO] else [] in
  if negb (contains (u "objetivos generales") metodologia)
     && negb (contains (u "objetivos específicos") metodologia)
  then observaciones ++ [FALTAN_OBJETIVOS]
  else observaciones.

Definition analizar_texto (texto : str) : result (list str) :=
  secciones <- dividir_secciones texto ;;
  let observaciones := [] ++ revisar_estructura secciones in
  let observaciones := observaciones ++ revisar_subsecciones secciones in
  let observaciones := observaciones ++ revisar_contenido secciones in
  Ok observaciones.

(** *** [uploader]

    The part of the handler between the extraction of the text and the
    rendering of the template: the three lists handed to [result.html]. *)

Record informe : Type := Informe {
  observaciones_contenido : list str;
  observaciones_metodologia : list str;
  observaciones_estructura : list str
}.

Definition uploader (texto : str) : result informe :=
  secciones <- dividir_secciones texto ;;
  let observaciones_contenido := revisar_contenido secciones in
  let observaciones_metodologia := revisar_metodologia secciones in
  observaciones_estructura <- analizar_texto texto ;;
  Ok (Informe observaciones_contenido observaciones_metodologia
              observaciones_estructura).

(** *** The loop body as a function of the line

    What [paso] computes, with the three regular-expression tests named;
    [paso_ok] below shows that [paso] returns exactly this. *)

Definition valor {A : Type} (default : A) (r : result A) : A :=
  match r with
  | Ok a => a
  | Raise _ => default
  end.

Definition normalizar (raw : str) : str := lower (strip raw).

Definition es_titulo (line : str) : bool :=
  existsb (fun patron => valor false (Re.search (lower patron) line)) patrones.

Definition es_tabla (line : str) : bool :=
  valor false (Re.search tabla_patron line).

Definition sanear (line : str) : str := valor [] (Re.sub no_letra [SP] line).

Definition paso_puro (st : scan) (raw : str) : scan :=
  let line := normalizar raw in
  let st1 :=
    if es_titulo line then Scan (guardar st) (Some (sanear line)) [] else st in
  if es_tabla line
  then Scan (secciones st1) (Some OPERACIONALIZACION)
            (current_content st1 ++ [line])
  else if negb (es_titulo line) && abierta (current_section st1)
  then Scan (secciones st1) (current_section st1)
            (current_content st1 ++ [line])
  else st1.

(** *** The scan as a relation between states

    One rule for each path through the loop body; a call of
    [dividir_secciones] is a derivation that starts from [inicio]. *)





(** *** The specification's own wording

    The three definitions below follow the words of the specification where
    the program differs from them, for comparison with the program. *)

(** The structural list as the specification has it: the output of the
    structural validator, then that of the subsection validator. *)
Definition estructura_segun_spec (secciones : dict) : list str :=
  revisar_estructura secciones ++ revisar_subsecciones secciones.

(** A line that contains the four tokens, wherever each of them stands. *)
Definition contiene_fichas (line : str) : bool :=
  contains (u "variable") line && contains (u "dimensiones") line
  && contains (u "indicadores") line && contains (u "unidad de medida") line.

(** The observation of the structural validator in the wording of the
    specification. *)
Definition missing_section (seccion : str) : str :=
  u "Missing section: " ++ capitalize seccion ++ u ".".

(** *** Notions used in the statements *)

(** The four tokens one after the other, as [tabla_patron] reads them. *)
Definition fichas_en_orden (line : str) : Prop :=
  exists a b c d e,
    line = a ++ u "variable" ++ b ++ u "dimensiones" ++ c
             ++ u "indicadores" ++ d ++ u "unidad de medida" ++ e.

Definition str_dec : forall a b : str, {a = b} + {a <> b} :=
  list_eq_dec N.eq_dec.

(** The pattern is one that [re] compiles. *)
Definition compila (pattern : str) : Prop :=
  exists r, Re.compile pattern = Some r.

(** A line that neither opens a section nor is the header of the table. *)
Definition linea_de_cuerpo (raw : str) : Prop :=
  es_titulo (normalizar raw) = false /\ es_tabla (normalizar raw) = false.

(** The table has been seen: its section is the open one or is stored. *)
Definition tabla_vista (st : scan) : Prop :=
  current_section st = Some OPERACIONALIZACION
  \/ Dict.has OPERACIONALIZACION (secciones st) = true.


(** The pattern for the text [w], followed by [r]. *)
Definition literal (w : str) (r : Re.regex) : Re.regex :=
  fold_right (fun c r => Re.Seq (Re.Chr c) r) r w.

(** The character before the position reached after reading [w]. *)
Definition tras (prev : option char) (w : str) : option char :=
  fold_left (fun _ c => Some c) w prev.

(** The first character of [w] is no whitespace. *)
Definition empieza_sin_espacio (w : str) : Prop :=
  match w with
  | c :: _ => isspace c = false
  | [] => False
  end.

(** A word of [str.split()]: not empty and without whitespace. *)
Definition palabra (w : str) : Prop :=
  w <> [] /\ forallb (fun c => negb (isspace c)) w = true.

End App.

(* ================================================================== *)
(** ** The upload handler *)

Module Archivo.
Import Py Exn Dict App.

(** [ALLOWED_EXTENSIONS], a set, read only for membership. *)
Definition ALLOWED_EXTENSIONS : list str := [u "pdf"].

(** [s.rsplit(sep, 1)] for a separator of one character: the text before the
    last separator and the text after it, or the text alone when it has no
    separator. *)
Fixpoint rsplit1 (sep : char) (s : str) : list str :=
  match s with
  | [] => [[]]
  | c :: rest =>
      match rsplit1 sep rest with
      | [tail] => if c =? sep then [[]; tail] else [c :: tail]
      | head :: more => (c :: head) :: more
      | [] => [[c]]
      end
  end.

(** [allowed_file(filename)]; [None] stands for the [IndexError] of
    [rsplit(...)[1]].  The right operand of [and] is evaluated only when the
    left one is true. *)
Definition allowed_file (filename : str) : option bool :=
  if contains (u ".") filename
  then match nth_error (rsplit1 (Re.ch ".") filename) 1 with
       | Some ext => Some (existsb (str_eqb (lower ext)) ALLOWED_EXTENSIONS)
       | None => None
       end
  else Some false.




(** A name that ends in a dot and "pdf" in any case of the three letters. *)
Definition termina_en_pdf (name : str) : Prop :=
  exists base p d f,
    name = base ++ [Re.ch "."; p; d; f]
    /\ (p = Re.ch "p" \/ p = Re.ch "P")
    /\ (d = Re.ch "d" \/ d = Re.ch "D")
    /\ (f = Re.ch "f" \/ f = Re.ch "F").

End Archivo.

(* ================================================================== *)
(** ** Notions for the further properties *)

Module Mas.
Import Py Exn Dict App.

(** The characters that [no_letra] keeps. *)
Definition es_letra (c : char) : bool :=
  between (Re.ch "a") (Re.ch "z") c || between (Re.ch "A") (Re.ch "Z") c
  || existsb (N.eqb c) (u "áéíóúüñ").

(** The section name that a heading line yields. *)
Definition nombre_de (line : str) : str :=
  map (fun c => if es_letra c then c else SP) line.

(** The literal text with which every match of a pattern starts. *)
Fixpoint prefijo (r : Re.regex) : str :=
  match r with
  | Re.Chr c => [c]
  | Re.Group g => prefijo g
  | Re.Seq (Re.Chr c) r2 => c :: prefijo r2
  | Re.Seq Re.WordB r2 => prefijo r2
  | Re.Seq (Re.Group g) _ => prefijo g
  | _ => []
  end.

(** The stems with which the ten heading patterns start. *)
Definition RAICES : list str :=
  [ u "resumen"; u "índice"; u "introducción"; u "marco"; u "metodolog";
    u "resultados"; u "conclusiones"; u "referencias"; u "anexos";
    u "operacionalizaci" ].







(** The expected subsections with their parent, in the order of the two
    loops of [revisar_subsecciones]. *)
Definition PARES : list (str * str) :=
  flat_map (fun entry : str * list str =>
              map (fun sub => (sub, fst entry)) (snd entry))
           SUB_SECCIONES_ESPERADAS.

(** The test that [revisar_subsecciones] makes for one subsection. *)
Definition falta_sub (secs : dict) (par : str * str) : bool :=
  negb (str_eqb (fst par) TABLA && Dict.has OPERACIONALIZACION secs)
  && negb (contains (fst par) (Dict.get (snd par) [] secs)).

(** Every name that the scan stores or has open is that of the table or
    comes from a heading line. *)
Definition claves_de_titulos (lines : list str) (st : scan) : Prop :=
  forall k,
    Dict.has k (secciones st) = true \/ current_section st = Some k ->
    k = OPERACIONALIZACION
    \/ exists raw, In raw lines /\ es_titulo (normalizar raw) = true
                   /\ k = sanear (normalizar raw).

(** Every stored body is trimmed. *)
Definition cuerpos_recortados (d : dict) : Prop :=
  forall k v, In (k, v) d -> strip v = v.


End Mas.

(* ================================================================== *)
(** * Properties *)

Import Py Exn Dict App.

(** ** Strings and dictionaries *)

Lemma str_eqb_eq (a b : str) : str_eqb a b = true <-> a = b.
Proof.
  unfold str_eqb. destruct (list_eq_dec N.eq_dec a b); split; congruence.
Qed.

Lemma str_eqb_refl (a : str) : str_eqb a a = true.
Proof. now apply str_eqb_eq. Qed.

Lemma str_eqb_neq (a b : str) : str_eqb a b = false <-> a <> b.
Proof.
  unfold str_eqb. destruct (list_eq_dec N.eq_dec a b); split; congruence.
Qed.

Lemma has_set_same (k v : str) (d : dict) : Dict.has k (Dict.set k v d) = true.
Proof.
  induction d as [|[k' v'] d IH]; simpl.
  - now rewrite str_eqb_refl.
  - destruct (str_eqb k k') eqn:E; simpl; rewrite E; auto.
Qed.

Lemma has_set_other (k k0 v : str) (d : dict) :
  k <> k0 -> Dict.has k (Dict.set k0 v d) = Dict.has k d.
Proof.
  intros Hne. induction d as [|[k' v'] d IH]; simpl.
  - apply str_eqb_neq in Hne. now rewrite Hne.
  - destruct (str_eqb k0 k') eqn:E; simpl; [reflexivity | now rewrite IH].
Qed.

Lemma has_set_mono (k k0 v : str) (d : dict) :
  Dict.has k d = true -> Dict.has k (Dict.set k0 v d) = true.
Proof.
  intros H. destruct (list_eq_dec N.eq_dec k k0) as [->|Hne].
  - apply has_set_same.
  - now rewrite has_set_other.
Qed.

(** ** The patterns compile *)

Lemma search_returns (pattern s : str) :
  compila pattern -> Re.search pattern s = Ok (valor false (Re.search pattern s)).
Proof.
  intros [r Hr]. unfold Re.search. now rewrite Hr.
Qed.

Lemma sub_returns (pattern repl s : str) :
  compila pattern -> Re.sub pattern repl s = Ok (valor [] (Re.sub pattern repl s)).
Proof.
  intros [r Hr]. unfold Re.sub. now rewrite Hr.
Qed.

Lemma patrones_compilan : Forall (fun patron => compila (lower patron)) patrones.
Proof.
  unfold patrones. repeat constructor; eexists; vm_compute; reflexivity.
Qed.

Lemma tabla_patron_compila : compila tabla_patron.
Proof. eexists; vm_compute; reflexivity. Qed.

Lemma no_letra_compila : compila no_letra.
Proof. eexists; vm_compute; reflexivity. Qed.

Lemma search_tabla (line : str) :
  Re.search tabla_patron line = Ok (es_tabla line).
Proof. apply search_returns, tabla_patron_compila. Qed.

Lemma sub_no_letra (line : str) :
  Re.sub no_letra [SP] line = Ok (sanear line).
Proof. apply sub_returns, no_letra_compila. Qed.

(** ** The loop body returns, and what it returns *)

Lemma buscar_titulo_ok (ps : list str) (line : str) (st : scan) :
  Forall (fun patron => compila (lower patron)) ps ->
  buscar_titulo ps line st =
  Ok (if existsb (fun patron => valor false (Re.search (lower patron) line)) ps
      then (Scan (guardar st) (Some (sanear line)) [], true)
      else (st, false)).
Proof.
  induction 1 as [|patron ps Hp Hps IH]; cbn [buscar_titulo existsb];
    [reflexivity|].
  rewrite (search_returns _ line Hp). cbn [bind].
  destruct (valor false (Re.search (lower patron) line)); cbn [orb].
  - rewrite sub_no_letra. reflexivity.
  - exact IH.
Qed.

Lemma paso_ok (st : scan) (raw : str) : paso st raw = Ok (paso_puro st raw).
Proof.
  unfold paso, paso_puro, normalizar.
  rewrite (buscar_titulo_ok _ _ _ patrones_compilan).
  fold (es_titulo (lower (strip raw))). cbn [bind].
  rewrite search_tabla. cbn [bind].
  destruct (es_titulo (lower (strip raw))), (es_tabla (lower (strip raw)));
    cbn [negb andb secciones current_section current_content];
    try reflexivity.
  destruct (abierta (current_section st)); reflexivity.
Qed.

Lemma recorrer_ok (lines : list str) (st : scan) :
  recorrer lines st = Ok (fold_left paso_puro lines st).
Proof.
  revert st. induction lines as [|raw rest IH]; intros st; simpl; [reflexivity|].
  rewrite paso_ok. simpl. apply IH.
Qed.

Lemma dividir_secciones_ok (texto : str) :
  dividir_secciones texto =
  Ok (guardar (fold_left paso_puro (split_on LF texto) inicio)).
Proof.
  unfold dividir_secciones. rewrite recorrer_ok. reflexivity.
Qed.

(** ** The validators *)

Section Acumulacion.

Context {X : Type} (p : X -> bool) (f : X -> str).

(** A loop that appends [f x] for the elements that satisfy [p] builds the
    image of the filtered list, after what was there before. *)
Lemma fold_left_append (l : list X) (acc : list str) :
  fold_left (fun obs x => if p x then obs ++ [f x] else obs) l acc
  = acc ++ map f (filter p l).
Proof.
  revert acc. induction l as [|x l IH]; intros acc; simpl.
  - now rewrite app_nil_r.
  - rewrite IH. destruct (p x); simpl; [now rewrite <- app_assoc | reflexivity].
Qed.

Lemma count_occ_map_filter (l : list X) (x : X) :
  NoDup (map f l) -> In x l ->
  count_occ str_dec (map f (filter p l)) (f x) = if p x then 1%nat else 0%nat.
Proof.
  induction l as [|y l IH]; simpl; [tauto|].
  intros Hnd Hin. inversion Hnd as [|? ? Hnotin Hnd']; subst.
  assert (Hzero : forall z, ~ In (f z) (map f l) ->
                  count_occ str_dec (map f (filter p l)) (f z) = 0%nat).
  { intros z Hz. apply count_occ_not_In. intros Hin'. apply Hz.
    apply in_map_iff in Hin'. destruct Hin' as [w [Hw Hw']].
    apply filter_In in Hw'. apply in_map_iff. exists w. tauto. }
  destruct Hin as [->|Hin].
  - destruct (p x); simpl.
    + destruct (str_dec (f x) (f x)); [|congruence]. now rewrite Hzero.
    + now apply Hzero.
  - assert (Hne : f y <> f x).
    { intros E. apply Hnotin. rewrite E. now apply in_map. }
    destruct (p y); simpl.
    + destruct (str_dec (f y) (f x)); [congruence|]. now apply IH.
    + now apply IH.
Qed.

End Acumulacion.

Lemma revisar_estructura_eq (secs : dict) :
  revisar_estructura secs =
  map falta_seccion
      (filter (fun s => negb (Dict.has s secs)) ESTRUCTURA_ESPERADA).
Proof.
  unfold revisar_estructura.
  exact (fold_left_append (fun s => negb (Dict.has s secs)) falta_seccion
           ESTRUCTURA_ESPERADA []).
Qed.

Lemma falta_seccion_distintas : NoDup (map falta_seccion ESTRUCTURA_ESPERADA).
Proof.
  apply (NoDup_count_occ' str_dec). intros o Ho.
  vm_compute in Ho.
  repeat (destruct Ho as [<-|Ho]; [vm_compute; reflexivity|]).
  destruct Ho.
Qed.

(** C5, as amended.  For every Section Map, [revisar_estructura] emits one
    observation for each name of [ESTRUCTURA_ESPERADA] that is no key of the
    map, in the order of that list, and nothing for any other key; the
    observation reads "Falta la sección: <Capitalized name>." *)
Theorem revisar_estructura_faltantes (secs : dict) :
  revisar_estructura secs
  = map falta_seccion
        (filter (fun s => negb (Dict.has s secs)) ESTRUCTURA_ESPERADA)
  /\ (forall s, In s ESTRUCTURA_ESPERADA ->
      count_occ str_dec (revisar_estructura secs) (falta_seccion s)
      = if Dict.has s secs then 0%nat else 1%nat)
  /\ (forall o, In o (revisar_estructura secs) ->
      exists s, In s ESTRUCTURA_ESPERADA /\ Dict.has s secs = false
                /\ o = falta_seccion s)
  /\ (forall s, falta_seccion s
                = u "Falta la sección: " ++ capitalize s ++ u ".").
Proof.
  rewrite revisar_estructura_eq. repeat split.
  - intros s Hs.
    rewrite (count_occ_map_filter _ falta_seccion _ s falta_seccion_distintas Hs).
    now destruct (Dict.has s secs).
  - intros o Ho. apply in_map_iff in Ho. destruct Ho as [s [<- Hs]].
    apply filter_In in Hs. destruct Hs as [Hin Hhas].
    exists s. repeat split; auto. now apply negb_true_iff.
Qed.

(** C5 as the specification words it fails: on the empty Section Map the
    nine observations are the Spanish sentences of the code and none of them
    has the form "Missing section: <Capitalized name>." *)
Lemma revisar_estructura_no_missing_section :
  revisar_estructura [] = map falta_seccion ESTRUCTURA_ESPERADA
  /\ nth 0 (revisar_estructura []) [] = u "Falta la sección: Resumen."
  /\ forallb (fun o => negb (existsb (fun s => str_eqb o (missing_section s))
                                     ESTRUCTURA_ESPERADA))
             (revisar_estructura []) = true.
Proof. repeat split; vm_compute; reflexivity. Qed.

(** ** The three lists of [uploader] *)

Lemma uploader_ok (texto : str) :
  let secs := guardar (fold_left paso_puro (split_on LF texto) inicio) in
  uploader texto
  = Ok (Informe (revisar_contenido secs)
                (revisar_metodologia secs)
                (revisar_estructura secs ++ revisar_subsecciones secs
                 ++ revisar_contenido secs)).
Proof.
  cbv zeta. unfold uploader, analizar_texto. rewrite dividir_secciones_ok.
  cbn [bind app]. now rewrite app_assoc.
Qed.

(** C1, as amended.  For every text, [uploader] returns three lists: the
    content list is the output of [revisar_contenido]; the methodology list
    is the output of [revisar_metodologia]; the structural list is the
    output of [revisar_estructura], then that of [revisar_subsecciones],
    then that of [revisar_contenido] once more. *)
Theorem uploader_listas (texto : str) :
  exists secs,
    dividir_secciones texto = Ok secs
    /\ uploader texto
       = Ok (Informe (revisar_contenido secs)
                     (revisar_metodologia secs)
                     (revisar_estructura secs ++ revisar_subsecciones secs
                      ++ revisar_contenido secs)).
Proof.
  exists (guardar (fold_left paso_puro (split_on LF texto) inicio)).
  split; [apply dividir_secciones_ok | apply uploader_ok].
Qed.

(** C1 as stated fails on the empty text: the structural list ends with the
    short-introduction observation, which neither the structural nor the
    subsection validator emits. *)
Lemma uploader_estructura_con_contenido :
  exists inf,
    dividir_secciones [] = Ok []
    /\ uploader [] = Ok inf
    /\ observaciones_estructura inf
       = estructura_segun_spec [] ++ [INTRODUCCION_CORTA]
    /\ observaciones_estructura inf <> estructura_segun_spec [].
Proof.
  eexists. split; [vm_compute; reflexivity|].
  split; [vm_compute; reflexivity|].
  split; [vm_compute; reflexivity|].
  vm_compute. discriminate.
Qed.

(** The end-to-end example of the specification: the content list has the
    short-introduction observation, the methodology list is empty, and the
    structural list has the seven missing sections, four missing
    subsections and the short-introduction observation again. *)
Example ejemplo_completo :
  let texto :=
    u "Introducción" ++ [LF] ++ u "Uno dos tres." ++ [LF] ++ u "Metodología"
    ++ [LF] ++ u "Diseño de investigación: experimental." ++ [LF]
    ++ u "Objetivos generales: x." in
  dividir_secciones texto
  = Ok [ (u "introducción", u "uno dos tres.");
         (u "metodología",
          u "diseño de investigación: experimental." ++ [LF]
          ++ u "objetivos generales: x.") ]
  /\ uploader texto
     = Ok (Informe
             [INTRODUCCION_CORTA]
             []
             (map falta_seccion
                  [ u "resumen"; u "índice"; u "marco teórico"; u "resultados";
                    u "conclusiones"; u "referencias bibliográficas";
                    u "anexos" ]
              ++ [ falta_subseccion (u "revisión de la literatura")
                                    (u "marco teórico");
                   falta_subseccion (u "teorías relacionadas")
                                    (u "marco teórico");
                   falta_subseccion TABLA (u "marco teórico");
                   falta_subseccion (u "objetivos específicos")
                                    (u "metodología") ]
              ++ [INTRODUCCION_CORTA])).
Proof. cbv zeta. split; vm_compute; reflexivity. Qed.

(** ** The content checks *)

Lemma get_absent (k default : str) (d : dict) :
  Dict.has k d = false -> Dict.get k default d = default.
Proof.
  induction d as [|[k' v'] d IH]; cbn [Dict.has Dict.get]; [reflexivity|].
  intros H. apply orb_false_elim in H. destruct H as [-> H]. now apply IH.
Qed.

Lemma split_ws_aux_word (w word rest : str) :
  forallb (fun c => negb (isspace c)) w = true ->
  split_ws_aux word (w ++ rest) = split_ws_aux (rev w ++ word) rest.
Proof.
  revert word. induction w as [|c w IH]; intros word H; [reflexivity|].
  cbn [forallb] in H. apply andb_prop in H. destruct H as [Hc Hw].
  apply negb_true_iff in Hc.
  cbn [app split_ws_aux rev]. rewrite Hc, (IH _ Hw), <- app_assoc. reflexivity.
Qed.

(** Words joined by single spaces are the tokens of the result. *)
Lemma split_ws_join (ws : list str) :
  Forall palabra ws -> split_ws (join [SP] ws) = ws.
Proof.
  unfold split_ws. induction 1 as [|w ws [Hne Hw] Hws IH]; [reflexivity|].
  assert (Hrev : forall tail,
            match rev w ++ [] with
            | [] => tail
            | _ :: _ => rev (rev w ++ []) :: tail
            end = w :: tail).
  { intros tail. rewrite app_nil_r.
    destruct (rev w) as [|c r] eqn:E.
    - apply (f_equal (@rev char)) in E. rewrite rev_involutive in E.
      now destruct Hne.
    - rewrite <- E, rev_involutive. reflexivity. }
  destruct ws as [|w2 ws].
  - cbn [join]. rewrite <- (app_nil_r w) at 1.
    rewrite (split_ws_aux_word _ _ _ Hw). cbn [split_ws_aux]. apply Hrev.
  - change (join [SP] (w :: w2 :: ws)) with (w ++ SP :: join [SP] (w2 :: ws)).
    rewrite (split_ws_aux_word _ _ _ Hw). cbn [split_ws_aux].
    replace (isspace SP) with true by reflexivity.
    rewrite IH. apply Hrev.
Qed.


(** C6.  [revisar_contenido] emits the short-introduction observation
    exactly when the body stored under "introducción" (the empty string when
    the key is absent) splits on whitespace into fewer than 100 tokens: with
    99 tokens it is emitted, with 100 it is not. *)
Theorem revisar_contenido_umbral (secs : dict) :
  let tokens := split_ws (Dict.get (u "introducción") [] secs) in
  (In INTRODUCCION_CORTA (revisar_contenido secs) <-> (length tokens < 100)%nat)
  /\ revisar_contenido secs
     = (if Nat.ltb (length tokens) 100 then [INTRODUCCION_CORTA] else [])
  /\ (length tokens = 99%nat -> revisar_contenido secs = [INTRODUCCION_CORTA])
  /\ (length tokens = 100%nat -> revisar_contenido secs = [])
  /\ (Dict.has (u "introducción") secs = false ->
      tokens = [] /\ revisar_contenido secs = [INTRODUCCION_CORTA])
  /\ (forall ws, Forall palabra ws ->
                 Dict.get (u "introducción") [] secs = join [SP] ws ->
                 tokens = ws).
Proof.
  cbv zeta. unfold revisar_contenido.
  set (n := length (split_ws (Dict.get (u "introducción") [] secs))).
  split; [|split; [|split; [|split; [|split]]]].
  - destruct (Nat.ltb_spec n 100) as [H|H]; split; intros H'; auto.
    + now left.
    + destruct H'.
    + lia.
  - reflexivity.
  - intros ->. reflexivity.
  - intros ->. reflexivity.
  - intros Habs. unfold n. rewrite (get_absent _ _ _ Habs). split; reflexivity.
  - intros ws Hws ->. now apply split_ws_join.
Qed.

(** The boundary on bodies of 99 and of 100 words. *)
Example introduccion_de_99_y_de_100_palabras :
  revisar_contenido [(u "introducción", join [SP] (repeat (u "palabra") 99))]
  = [INTRODUCCION_CORTA]
  /\ revisar_contenido [(u "introducción", join [SP] (repeat (u "palabra") 100))]
     = [].
Proof. split; vm_compute; reflexivity. Qed.

Lemma metodologia_dos_mensajes (a b : str) (d o1 o2 : bool) :
  a <> b ->
  let out := (if negb (o1) && negb (o2)
              then (if negb d then [a] else []) ++ [b]
              else (if negb d then [a] else [])) in
  (In a out <-> d = false)
  /\ (In b out <-> o1 = false /\ o2 = false)
  /\ count_occ str_dec out b
     = (if negb o1 && negb o2 then 1%nat else 0%nat).
Proof.
  intros Hab. cbv zeta.
  assert (Hb : count_occ str_dec [b] b = 1%nat).
  { simpl. now destruct (str_dec b b). }
  assert (Hab' : count_occ str_dec [a; b] b = 1%nat).
  { simpl. destruct (str_dec a b); [contradiction|]. now destruct (str_dec b b). }
  assert (Ha : count_occ str_dec [a] b = 0%nat).
  { simpl. now destruct (str_dec a b). }
  destruct d, o1, o2; cbn [negb andb app]; (split; [|split]); auto;
    simpl; intuition (congruence || discriminate).
Qed.

(** C7.  On the body stored under "metodología" (the empty string when the
    key is absent), [revisar_metodologia] emits the research-design
    observation iff "diseño de investigación" is no substring of the body,
    and the objectives observation iff neither "objetivos generales" nor
    "objetivos específicos" is one: either phrase alone suppresses it, and
    when both are absent it is emitted once. *)
Theorem revisar_metodologia_reglas (secs : dict) :
  let m := Dict.get (u "metodología") [] secs in
  let out := revisar_metodologia secs in
  (In FALTA_DISENO out <-> contains (u "diseño de investigación") m = false)
  /\ (In FALTAN_OBJETIVOS out <->
      contains (u "objetivos generales") m = false
      /\ contains (u "objetivos específicos") m = false)
  /\ count_occ str_dec out FALTAN_OBJETIVOS
     = (if negb (contains (u "objetivos generales") m)
           && negb (contains (u "objetivos específicos") m)
        then 1%nat else 0%nat)
  /\ (Dict.has (u "metodología") secs = false ->
      m = [] /\ out = [FALTA_DISENO; FALTAN_OBJETIVOS]).
Proof.
  cbv zeta. rewrite <- !and_assoc. split.
  - rewrite !and_assoc. unfold revisar_metodologia.
    apply metodologia_dos_mensajes. vm_compute. discriminate.
  - intros Habs. unfold revisar_metodologia.
    rewrite (get_absent _ _ _ Habs). split; reflexivity.
Qed.

(** The two cases that the specification lists for the objectives. *)
Example metodologia_objetivos :
  revisar_metodologia
    [(u "metodología", u "diseño de investigación; objetivos generales")]
  = []
  /\ revisar_metodologia
       [(u "metodología", u "diseño de investigación experimental")]
     = [FALTAN_OBJETIVOS].
Proof. split; vm_compute; reflexivity. Qed.

(** ** The table of operationalized variables *)

Lemma truthy_operacionalizacion : truthy OPERACIONALIZACION = true.
Proof. reflexivity. Qed.

Lemma guardar_has (k : str) (st : scan) :
  Dict.has k (secciones st) = true -> Dict.has k (guardar st) = true.
Proof.
  intros H. unfold guardar. destruct (current_section st) as [s|]; [|exact H].
  destruct (truthy s); [now apply has_set_mono | exact H].
Qed.

Lemma guardar_tabla_vista (st : scan) :
  tabla_vista st -> Dict.has OPERACIONALIZACION (guardar st) = true.
Proof.
  intros [H|H]; [|now apply guardar_has].
  unfold guardar. rewrite H, truthy_operacionalizacion. apply has_set_same.
Qed.

Lemma paso_puro_secciones (st : scan) (raw : str) :
  secciones (paso_puro st raw) = secciones st
  \/ secciones (paso_puro st raw) = guardar st.
Proof.
  unfold paso_puro.
  destruct (es_titulo (normalizar raw)), (es_tabla (normalizar raw));
    cbn [negb andb secciones current_section]; auto.
  destruct (abierta (current_section st)); auto.
Qed.

Lemma paso_puro_en_tabla (st : scan) (raw : str) :
  es_tabla (normalizar raw) = true ->
  current_section (paso_puro st raw) = Some OPERACIONALIZACION.
Proof. intros H. unfold paso_puro. now rewrite H. Qed.

Lemma paso_puro_tabla_vista (st : scan) (raw : str) :
  tabla_vista st -> tabla_vista (paso_puro st raw).
Proof.
  intros Hst. unfold paso_puro, tabla_vista.
  destruct (es_tabla (normalizar raw)); [now left|].
  destruct (es_titulo (normalizar raw));
    cbn [negb andb secciones current_section].
  - right. now apply guardar_tabla_vista.
  - destruct (abierta (current_section st)); exact Hst.
Qed.

Lemma recorrido_tabla_vista (lines : list str) (st : scan) :
  tabla_vista st -> tabla_vista (fold_left paso_puro lines st).
Proof.
  revert st. induction lines as [|raw rest IH]; intros st H; simpl; [exact H|].
  apply IH, paso_puro_tabla_vista, H.
Qed.

Lemma recorrido_con_tabla (lines : list str) (st : scan) (raw : str) :
  In raw lines -> es_tabla (normalizar raw) = true ->
  tabla_vista (fold_left paso_puro lines st).
Proof.
  intros Hin Htab. apply in_split in Hin. destruct Hin as [l1 [l2 ->]].
  rewrite fold_left_app. simpl. apply recorrido_tabla_vista.
  left. now apply paso_puro_en_tabla.
Qed.

(** What the two nested loops of [revisar_subsecciones] build. *)
Lemma fold_left_flat {X : Type} (h : X -> list str)
  (step : list str -> X -> list str) :
  (forall acc x, step acc x = acc ++ h x) ->
  forall l acc, fold_left step l acc = acc ++ flat_map h l.
Proof.
  intros Hstep. induction l as [|x l IH]; intros acc; simpl.
  - now rewrite app_nil_r.
  - now rewrite IH, Hstep, app_assoc.
Qed.

Lemma revisar_subsecciones_eq (secs : dict) :
  revisar_subsecciones secs =
  flat_map
    (fun entry : str * list str =>
       flat_map
         (fun sub =>
            if str_eqb sub TABLA && Dict.has OPERACIONALIZACION secs then []
            else if negb (contains sub (Dict.get (fst entry) [] secs))
            then [falta_subseccion sub (fst entry)]
            else [])
         (snd entry))
    SUB_SECCIONES_ESPERADAS.
Proof.
  unfold revisar_subsecciones.
  rewrite (fold_left_flat
             (fun entry : str * list str =>
                flat_map
                  (fun sub =>
                     if str_eqb sub TABLA && Dict.has OPERACIONALIZACION secs
                     then []
                     else if negb (contains sub (Dict.get (fst entry) [] secs))
                     then [falta_subseccion sub (fst entry)]
                     else [])
                  (snd entry))); [reflexivity|].
  intros acc [seccion subsecciones]. cbn [fst snd].
  apply fold_left_flat. intros acc' sub.
  destruct (str_eqb sub TABLA && Dict.has OPERACIONALIZACION secs);
    [now rewrite app_nil_r|].
  destruct (negb (contains sub (Dict.get seccion [] secs)));
    [reflexivity | now rewrite app_nil_r].
Qed.

Lemma revisar_subsecciones_in (secs : dict) (o : str) :
  In o (revisar_subsecciones secs) <->
  exists seccion subsecciones sub,
    In (seccion, subsecciones) SUB_SECCIONES_ESPERADAS
    /\ In sub subsecciones
    /\ (str_eqb sub TABLA && Dict.has OPERACIONALIZACION secs) = false
    /\ contains sub (Dict.get seccion [] secs) = false
    /\ o = falta_subseccion sub seccion.
Proof.
  rewrite revisar_subsecciones_eq, in_flat_map. split.
  - intros [[seccion subsecciones] [Hentry Ho]]. cbn [fst snd] in Ho.
    apply in_flat_map in Ho. destruct Ho as [sub [Hsub Ho]].
    exists seccion, subsecciones, sub.
    destruct (str_eqb sub TABLA && Dict.has OPERACIONALIZACION secs);
      [destruct Ho|].
    destruct (contains sub (Dict.get seccion [] secs)); cbn [negb] in Ho;
      [destruct Ho|].
    destruct Ho as [<-|[]]. auto.
  - intros [seccion [subsecciones [sub [Hentry [Hsub [Hskip [Hmiss ->]]]]]]].
    exists (seccion, subsecciones). split; [exact Hentry|]. cbn [fst snd].
    apply in_flat_map. exists sub. split; [exact Hsub|].
    rewrite Hskip, Hmiss. now left.
Qed.

(** Among the expected subsections only the marker of the table yields the
    observation about the table. *)
Lemma falta_subseccion_tabla (seccion seccion' sub : str) (subs : list str) :
  In (seccion', subs) SUB_SECCIONES_ESPERADAS -> In sub subs ->
  falta_subseccion TABLA seccion = falta_subseccion sub seccion' ->
  sub = TABLA.
Proof.
  intros Hentry Hsub Heq. unfold SUB_SECCIONES_ESPERADAS in Hentry.
  destruct Hentry as [E|[E|[]]]; inversion E; subst; clear E;
    repeat (destruct Hsub as [<-|Hsub];
            [first [vm_compute in Heq; discriminate Heq
                   | vm_compute; reflexivity]|]);
    destruct Hsub.
Qed.

Lemma sin_observacion_de_tabla (secs : dict) (seccion : str) :
  Dict.has OPERACIONALIZACION secs = true ->
  ~ In (falta_subseccion TABLA seccion) (revisar_subsecciones secs).
Proof.
  intros Hhas Hin. apply revisar_subsecciones_in in Hin.
  destruct Hin as [seccion' [subs [sub [Hentry [Hsub [Hskip [_ Heq]]]]]]].
  rewrite (falta_subseccion_tabla _ _ _ _ Hentry Hsub Heq) in Hskip.
  now rewrite str_eqb_refl, Hhas in Hskip.
Qed.

(** C3.  When some line of the text matches the table pattern, the Section
    Map has the key "operacionalización de variables", and
    [revisar_subsecciones] emits no observation for the marker "tabla de
    operacionalización de variables". *)
Theorem tabla_detectada (texto : str) :
  (exists raw, In raw (split_on LF texto)
               /\ Re.search tabla_patron (lower (strip raw)) = Ok true) ->
  exists secs,
    dividir_secciones texto = Ok secs
    /\ Dict.has OPERACIONALIZACION secs = true
    /\ forall seccion,
         ~ In (falta_subseccion TABLA seccion) (revisar_subsecciones secs).
Proof.
  intros [raw [Hin Htab]].
  exists (guardar (fold_left paso_puro (split_on LF texto) inicio)).
  split; [apply dividir_secciones_ok|].
  assert (Hhas : Dict.has OPERACIONALIZACION
                   (guardar (fold_left paso_puro (split_on LF texto) inicio))
                 = true).
  { apply guardar_tabla_vista. apply (recorrido_con_tabla _ _ raw Hin).
    unfold normalizar. rewrite search_tabla in Htab. congruence. }
  split; [exact Hhas|]. intros seccion. now apply sin_observacion_de_tabla.
Qed.

Lemma tabla_detectada_witness :
  exists secs,
    dividir_secciones (u "Variable | Dimensiones | Indicadores | Unidad de medida")
    = Ok secs
    /\ Dict.has OPERACIONALIZACION secs = true
    /\ forall seccion,
         ~ In (falta_subseccion TABLA seccion) (revisar_subsecciones secs).
Proof.
  apply tabla_detectada.
  exists (u "Variable | Dimensiones | Indicadores | Unidad de medida").
  split; [vm_compute; left; reflexivity | vm_compute; reflexivity].
Defined.






(** The text "Resumen / texto / header of the table / mas": the body of the
    summary ends up under the section of the table, and "resumen" is no key
    of the map. *)
Example resumen_absorbido :
  dividir_secciones
    (u "Resumen" ++ [LF] ++ u "texto" ++ [LF]
     ++ u "Variable  Dimensiones Indicadores Unidad de medida" ++ [LF]
     ++ u "mas")
  = Ok [ (OPERACIONALIZACION,
          u "texto" ++ [LF]
          ++ u "variable  dimensiones indicadores unidad de medida" ++ [LF]
          ++ u "mas") ].
Proof. vm_compute. reflexivity. Qed.

(** ** The references heading *)

Lemma has_set_inv (k k0 v : str) (d : dict) :
  Dict.has k (Dict.set k0 v d) = true -> k = k0 \/ Dict.has k d = true.
Proof.
  destruct (str_dec k k0) as [->|Hne]; [now left|].
  rewrite has_set_other by exact Hne. now right.
Qed.

Lemma guardar_has_inv (k : str) (st : scan) :
  Dict.has k (guardar st) = true ->
  current_section st = Some k \/ Dict.has k (secciones st) = true.
Proof.
  unfold guardar. destruct (current_section st) as [s|]; [|now right].
  destruct (truthy s); [|now right].
  intros H. apply has_set_inv in H. destruct H as [->|H]; auto.
Qed.






Lemma falta_si_ausente (secs : dict) (s : str) :
  In s ESTRUCTURA_ESPERADA -> Dict.has s secs = false ->
  In (falta_seccion s) (revisar_estructura secs).
Proof.
  intros Hin Hhas. rewrite revisar_estructura_eq. apply in_map.
  apply filter_In. split; [exact Hin | now rewrite Hhas].
Qed.



(** ** No exception *)

Lemma recorrido_sin_titulos (lines : list str) :
  Forall linea_de_cuerpo lines -> fold_left paso_puro lines inicio = inicio.
Proof.
  induction 1 as [|raw rest [Ht Hb] _ IH]; simpl; [reflexivity|].
  unfold paso_puro at 2. rewrite Ht, Hb. exact IH.
Qed.

(** C8.  On every text the segmenter and the validators return: no call
    raises.  The empty text and a text none of whose lines is a heading or
    the header of the table give the empty Section Map and the full list of
    missing-structure observations; a text that is only the header of the
    table gives a map with the section of the table alone. *)
Theorem nunca_lanza (texto : str) :
  returns (dividir_secciones texto)
  /\ returns (analizar_texto texto)
  /\ returns (uploader texto)
  /\ ((forall raw, In raw (split_on LF texto) -> linea_de_cuerpo raw) ->
      dividir_secciones texto = Ok []
      /\ analizar_texto texto
         = Ok (map falta_seccion ESTRUCTURA_ESPERADA
               ++ flat_map (fun entry : str * list str =>
                              map (fun sub => falta_subseccion sub (fst entry))
                                  (snd entry))
                           SUB_SECCIONES_ESPERADAS
               ++ [INTRODUCCION_CORTA]))
  /\ (dividir_secciones [] = Ok []
      /\ exists obs, analizar_texto [] = Ok obs /\ length obs = 16%nat)
  /\ (dividir_secciones (u "variable dimensiones indicadores unidad de medida")
      = Ok [(OPERACIONALIZACION,
             u "variable dimensiones indicadores unidad de medida")]
      /\ exists obs,
           analizar_texto (u "variable dimensiones indicadores unidad de medida")
           = Ok obs /\ length obs = 15%nat).
Proof.
  unfold returns.
  split; [rewrite dividir_secciones_ok; eauto|].
  split; [unfold analizar_texto; rewrite dividir_secciones_ok; cbn [bind]; eauto|].
  split; [rewrite uploader_ok; eauto|].
  split.
  - intros Hplain.
    assert (Hd : dividir_secciones texto = Ok []).
    { rewrite dividir_secciones_ok, recorrido_sin_titulos;
        [reflexivity | now apply Forall_forall]. }
    split; [exact Hd|].
    unfold analizar_texto. rewrite Hd. cbn [bind].
    vm_compute. reflexivity.
  - split; (split; [vm_compute; reflexivity|]);
      eexists; (split; [vm_compute; reflexivity | reflexivity]).
Qed.

(** ** Determinism *)










(** ** The table pattern *)

Lemma tabla_patron_compilado :
  Re.compile tabla_patron
  = Some (Re.Seq
            (Re.Group
               (literal (u "variable")
                  (Re.Seq (Re.Star Re.Any)
                     (literal (u "dimensiones")
                        (Re.Seq (Re.Star Re.Any)
                           (literal (u "indicadores")
                              (Re.Seq (Re.Star Re.Any)
                                 (literal (u "unidad de medida") Re.Eps))))))))
            Re.Eps).
Proof. vm_compute. reflexivity. Qed.

Section Matcher.

Context {A : Type}.
Implicit Types (k : option char -> str -> option A).

Lemma rmatch_literal (w : str) (r : Re.regex) prev (s : str) k :
  Re.rmatch (literal w r) prev (w ++ s) k = Re.rmatch r (tras prev w) s k.
Proof.
  revert prev. induction w as [|c w IH]; intros prev; [reflexivity|].
  cbn [literal fold_right app Re.rmatch tras fold_left].
  rewrite N.eqb_refl. apply IH.
Qed.

Lemma star_rounds_S body k (fuel : nat) prev (s : str) :
  Re.star_rounds body k (S fuel) prev s
  = Re.orelse
      (body prev s
         (fun p t =>
            if Nat.ltb (length t) (length s)
            then Re.star_rounds body k fuel p t else None))
      (k prev s).
Proof. reflexivity. Qed.

Lemma rmatch_any_cons (c : char) (s : str) prev k :
  Re.rmatch Re.Any prev (c :: s) k = if c =? LF then None else k (Some c) s.
Proof. reflexivity. Qed.

(** A run of characters without a line feed can be left to [.*]. *)
Lemma star_any_rounds (mid s : str) k :
  ~ In LF mid ->
  forall (fuel : nat) prev,
    (length (mid ++ s) <= fuel)%nat ->
    (exists x, k (tras prev mid) s = Some x) ->
    exists y, Re.star_rounds (Re.rmatch Re.Any) k fuel prev (mid ++ s) = Some y.
Proof.
  induction mid as [|c mid IH]; intros Hlf fuel prev Hfuel [x Hx].
  - cbn [app tras fold_left] in *. destruct fuel as [|fuel].
    + cbn [Re.star_rounds]. eauto.
    + rewrite star_rounds_S, Hx.
      match goal with |- context [Re.orelse ?a _] => destruct a end;
        cbn [Re.orelse]; eauto.
  - destruct fuel as [|fuel]; [cbn in Hfuel; lia|].
    assert (Hc : (c =? LF) = false).
    { apply N.eqb_neq. intros ->. apply Hlf. now left. }
    assert (Hlt : Nat.ltb (length (mid ++ s)) (length ((c :: mid) ++ s)) = true).
    { apply Nat.ltb_lt. cbn. lia. }
    destruct (IH (fun H => Hlf (or_intror H)) fuel (Some c)) as [y Hy].
    + cbn in Hfuel. lia.
    + exists x. exact Hx.
    + rewrite star_rounds_S. change ((c :: mid) ++ s) with (c :: mid ++ s) in *.
      rewrite rmatch_any_cons, Hc, Hlt, Hy. cbn [Re.orelse]. eauto.
Qed.

Lemma rmatch_star_any (mid s : str) (r : Re.regex) prev k :
  ~ In LF mid ->
  (exists x, Re.rmatch r (tras prev mid) s k = Some x) ->
  exists y, Re.rmatch (Re.Seq (Re.Star Re.Any) r) prev (mid ++ s) k = Some y.
Proof.
  intros Hlf Hx. cbn [Re.rmatch].
  now apply star_any_rounds.
Qed.

End Matcher.

Lemma search_from_app (r : Re.regex) (pre s : str) prev :
  (exists x, Re.rmatch r (tras prev pre) s (fun _ _ => Some tt) = Some x) ->
  Re.search_from r prev (pre ++ s) = true.
Proof.
  revert prev. induction pre as [|c pre IH]; intros prev [x Hx].
  - cbn [app tras fold_left] in *. destruct s; cbn [Re.search_from]; now rewrite Hx.
  - cbn [app Re.search_from].
    destruct (Re.rmatch r prev (c :: pre ++ s) (fun _ _ => Some tt));
      [reflexivity|].
    apply IH. eauto.
Qed.

Lemma not_in_app (x : char) (a b : str) : ~ In x (a ++ b) -> ~ In x a /\ ~ In x b.
Proof. intros H. split; intros Hin; apply H, in_or_app; auto. Qed.

(** A line with the four tokens in the order of the pattern, and no line
    feed, is matched. *)
Lemma es_tabla_en_orden (line : str) :
  ~ In LF line -> fichas_en_orden line -> es_tabla line = true.
Proof.
  intros Hlf [a [b [c [d [e ->]]]]].
  unfold es_tabla, Re.search. rewrite tabla_patron_compilado. cbn [valor].
  apply not_in_app in Hlf. destruct Hlf as [_ Hlf].
  apply not_in_app in Hlf. destruct Hlf as [_ Hlf].
  apply not_in_app in Hlf. destruct Hlf as [Hb Hlf].
  apply not_in_app in Hlf. destruct Hlf as [_ Hlf].
  apply not_in_app in Hlf. destruct Hlf as [Hc Hlf].
  apply not_in_app in Hlf. destruct Hlf as [_ Hlf].
  apply not_in_app in Hlf. destruct Hlf as [Hd _].
  apply search_from_app.
  cbn [Re.rmatch]. rewrite rmatch_literal.
  apply rmatch_star_any; [exact Hb|]. rewrite rmatch_literal.
  apply rmatch_star_any; [exact Hc|]. rewrite rmatch_literal.
  apply rmatch_star_any; [exact Hd|]. rewrite rmatch_literal.
  cbn [Re.rmatch]. eauto.
Qed.

(** ** Normalization keeps the tokens *)

Lemma lower_char_LF (c : char) : In LF (lower_char c) -> c = LF.
Proof.
  unfold lower_char, between, LF.
  repeat match goal with
         | |- context [if ?b then _ else _] => destruct b eqn:?
         end;
    cbn [In]; intros H;
    repeat match goal with
           | H : _ \/ _ |- _ => destruct H
           | H : False |- _ => destruct H
           | H : (_ && _) = true |- _ => apply andb_prop in H; destruct H
           | H : (_ || _) = true |- _ => apply orb_prop in H; destruct H
           | H : (_ <=? _) = true |- _ => apply N.leb_le in H
           | H : (_ =? _) = true |- _ => apply N.eqb_eq in H
           end;
    try lia; try discriminate.
Qed.

Lemma lower_sin_LF (s : str) : ~ In LF s -> ~ In LF (lower s).
Proof.
  intros H Hin. apply H. unfold lower in Hin. apply in_flat_map in Hin.
  destruct Hin as [c [Hc Hlf]]. now rewrite <- (lower_char_LF c Hlf).
Qed.

Lemma lstrip_incl (x : char) (s : str) : In x (lstrip s) -> In x s.
Proof.
  induction s as [|c s IH]; cbn [lstrip]; [tauto|].
  destruct (isspace c); [intros H; right; auto | tauto].
Qed.

Lemma strip_incl (x : char) (s : str) : In x (strip s) -> In x s.
Proof.
  unfold strip, rstrip. intros H.
  apply in_rev, lstrip_incl in H. apply in_rev in H. now apply lstrip_incl.
Qed.

Lemma normalizar_sin_LF (raw : str) : ~ In LF raw -> ~ In LF (normalizar raw).
Proof.
  intros H. apply lower_sin_LF. intros Hin. apply H. now apply strip_incl.
Qed.

Lemma lstrip_app (a w rest : str) :
  empieza_sin_espacio w ->
  exists a', lstrip (a ++ w ++ rest) = a' ++ w ++ rest.
Proof.
  intros Hw. induction a as [|c a [a' IH]].
  - exists []. destruct w as [|c w]; [destruct Hw|].
    cbn in Hw |- *. now rewrite Hw.
  - cbn [app lstrip]. destruct (isspace c).
    + exists a'. exact IH.
    + exists (c :: a). reflexivity.
Qed.

Lemma rstrip_app (a w rest : str) :
  empieza_sin_espacio (rev w) ->
  exists rest', rstrip (a ++ w ++ rest) = a ++ w ++ rest'.
Proof.
  intros Hw. unfold rstrip. rewrite !rev_app_distr, <- app_assoc.
  destruct (lstrip_app (rev rest) (rev w) (rev a) Hw) as [r' ->].
  exists (rev r'). now rewrite !rev_app_distr, !rev_involutive, <- app_assoc.
Qed.

Lemma split_on_sin_sep (sep : char) (s l : str) :
  In l (split_on sep s) -> ~ In sep l.
Proof.
  revert l. induction s as [|c s IH]; intros l; cbn [split_on].
  - intros [<-|[]]. tauto.
  - destruct (c =? sep) eqn:E.
    + intros [<-|H]; [tauto | now apply IH].
    + destruct (split_on sep s) as [|piece pieces].
      * intros [<-|[]]. intros [->|[]]. now rewrite N.eqb_refl in E.
      * intros [<-|H]; [|apply IH; now right].
        intros [->|H]; [now rewrite N.eqb_refl in E|].
        apply (IH piece); [now left | exact H].
Qed.

Lemma fichas_en_orden_normalizar (raw : str) :
  fichas_en_orden raw -> fichas_en_orden (normalizar raw).
Proof.
  intros [a [b [c [d [e ->]]]]]. unfold normalizar, strip.
  destruct (lstrip_app a (u "variable")
              (b ++ u "dimensiones" ++ c ++ u "indicadores" ++ d
               ++ u "unidad de medida" ++ e)) as [a' ->];
    [vm_compute; reflexivity|].
  replace (a' ++ u "variable" ++ b ++ u "dimensiones" ++ c ++ u "indicadores"
           ++ d ++ u "unidad de medida" ++ e)
    with ((a' ++ u "variable" ++ b ++ u "dimensiones" ++ c ++ u "indicadores"
           ++ d) ++ u "unidad de medida" ++ e)
    by (now rewrite <- !app_assoc).
  destruct (rstrip_app
              (a' ++ u "variable" ++ b ++ u "dimensiones" ++ c
               ++ u "indicadores" ++ d)
              (u "unidad de medida") e) as [e' ->];
    [vm_compute; reflexivity|].
  exists (lower a'), (lower b), (lower c), (lower d), (lower e').
  unfold lower. rewrite <- !app_assoc, !flat_map_app. reflexivity.
Qed.

(** C2, as amended.  For every line of the text that contains the four
    tokens in the order "variable", "dimensiones", "indicadores", "unidad de
    medida", each after the end of the one before (as written, or once the
    line is trimmed and lowercased), the table pattern matches the
    normalized line, and the segmenter leaves the section
    "operacionalización de variables" open with the line at the end of its
    buffer. *)
Theorem tabla_patron_en_orden (texto raw : str) (st : scan) :
  In raw (split_on LF texto) ->
  fichas_en_orden raw \/ fichas_en_orden (lower (strip raw)) ->
  Re.search tabla_patron (lower (strip raw)) = Ok true
  /\ exists st' content,
       paso st raw = Ok st'
       /\ current_section st' = Some OPERACIONALIZACION
       /\ current_content st' = content ++ [lower (strip raw)].
Proof.
  intros Hin Hfichas.
  assert (Htab : es_tabla (normalizar raw) = true).
  { apply es_tabla_en_orden.
    - apply normalizar_sin_LF. now apply (split_on_sin_sep LF texto).
    - destruct Hfichas as [H|H]; [now apply fichas_en_orden_normalizar | exact H]. }
  split; [rewrite search_tabla; now f_equal|].
  rewrite paso_ok. unfold paso_puro. rewrite Htab.
  eexists. eexists. split; [reflexivity|].
  cbn [current_section current_content]. split; reflexivity.
Qed.

Lemma tabla_patron_en_orden_witness :
  let raw := u "variable x dimensiones y indicadores z unidad de medida" in
  Re.search tabla_patron (lower (strip raw)) = Ok true
  /\ exists st' content,
       paso inicio raw = Ok st'
       /\ current_section st' = Some OPERACIONALIZACION
       /\ current_content st' = content ++ [lower (strip raw)].
Proof.
  apply (tabla_patron_en_orden
           (u "variable x dimensiones y indicadores z unidad de medida")
           (u "variable x dimensiones y indicadores z unidad de medida")
           inicio).
  - vm_compute. left. reflexivity.
  - left. exists [], (u " x "), (u " y "), (u " z "), [].
    vm_compute. reflexivity.
Defined.

(** C2 as stated fails: a line with the four tokens in another order is not
    matched by the table pattern, and the segmenter opens no section on
    it. *)
Lemma tabla_patron_otro_orden :
  let raw := u "dimensiones variable indicadores unidad de medida" in
  contiene_fichas raw = true
  /\ lower (strip raw) = raw
  /\ split_on LF raw = [raw]
  /\ Re.search tabla_patron (lower (strip raw)) = Ok false
  /\ paso inicio raw = Ok inicio
  /\ paso (Scan [] (Some (u "resumen")) []) raw
     = Ok (Scan [] (Some (u "resumen")) [raw])
  /\ dividir_secciones raw = Ok [].
Proof. cbv zeta. repeat split; vm_compute; reflexivity. Qed.

(* ================================================================== *)
(** * Further properties *)

Import Archivo Mas.

(** ** [allowed_file] *)

Lemma contains_char (c : char) (s : str) : contains [c] s = true <-> In c s.
Proof.
  induction s as [|d s IH]; cbn [contains startswith In].
  - split; [discriminate | tauto].
  - rewrite orb_true_iff, IH, andb_true_r, N.eqb_eq. split; intros [H|H]; auto.
Qed.

Lemma rsplit1_sin_sep (sep : char) (s : str) :
  ~ In sep s -> rsplit1 sep s = [s].
Proof.
  induction s as [|c s IH]; intros H; cbn [rsplit1]; [reflexivity|].
  rewrite IH by (intros Hin; apply H; now right).
  destruct (c =? sep) eqn:E; [|reflexivity].
  apply N.eqb_eq in E. exfalso. apply H. now left.
Qed.

Lemma rsplit1_app (sep : char) (base ext : str) :
  ~ In sep ext -> rsplit1 sep (base ++ sep :: ext) = [base; ext].
Proof.
  intros H. induction base as [|c base IH]; cbn [app rsplit1].
  - now rewrite (rsplit1_sin_sep _ _ H), N.eqb_refl.
  - now rewrite IH.
Qed.

(** The last separator of a text that has one. *)
Lemma ultimo_separador (sep : char) (s : str) :
  In sep s -> exists base ext, s = base ++ sep :: ext /\ ~ In sep ext.
Proof.
  induction s as [|c s IH]; [intros []|].
  intros Hin. destruct (in_dec N.eq_dec sep s) as [Hs|Hs].
  - destruct (IH Hs) as [base [ext [-> Hext]]].
    exists (c :: base), ext. split; [reflexivity | exact Hext].
  - destruct Hin as [->|Hin]; [|contradiction].
    exists [], s. split; [reflexivity | exact Hs].
Qed.

Lemma lower_char_forma (c : char) :
  lower_char c = [0x69; 0x307] \/ exists x, lower_char c = [x].
Proof.
  unfold lower_char.
  repeat match goal with
         | |- context [if ?b then _ else _] => destruct b
         end; eauto.
Qed.

(** Only a lower-case ASCII letter and its capital are lowered to that
    letter. *)
Lemma lower_char_ascii (l c : char) :
  between (Re.ch "a") (Re.ch "z") l = true ->
  lower_char c = [l] -> c = l \/ c = l - 32.
Proof.
  unfold between. change (Re.ch "a") with 97. change (Re.ch "z") with 122.
  intros Hl. apply andb_prop in Hl. destruct Hl as [Hl1 Hl2].
  apply N.leb_le in Hl1. apply N.leb_le in Hl2.
  unfold lower_char, between.
  repeat match goal with
         | |- context [if ?b then _ else _] => destruct b eqn:?
         end;
    intros H; (discriminate H || injection H as H);
    repeat match goal with
           | H : (_ && _) = true |- _ => apply andb_prop in H; destruct H
           | H : (_ || _) = true |- _ => apply orb_prop in H; destruct H
           | H : (_ <=? _) = true |- _ => apply N.leb_le in H
           | H : (_ =? _) = true |- _ => apply N.eqb_eq in H
           end;
    lia.
Qed.

Lemma lower_nil (s : str) : lower s = [] -> s = [].
Proof.
  destruct s as [|c s]; [reflexivity|]. unfold lower. cbn [flat_map].
  destruct (lower_char_forma c) as [-> | [x ->]]; discriminate.
Qed.

Lemma lower_cons_ascii (l : char) (rest s : str) :
  between (Re.ch "a") (Re.ch "z") l = true ->
  l <> 0x69 ->
  lower s = l :: rest ->
  exists c s', s = c :: s' /\ (c = l \/ c = l - 32) /\ lower s' = rest.
Proof.
  intros Hl Hi. destruct s as [|c s]; [discriminate|].
  unfold lower. cbn [flat_map].
  destruct (lower_char_forma c) as [E | [x E]]; rewrite E; cbn [app]; intros H.
  - injection H as H _. congruence.
  - injection H as -> H. exists c, s. repeat split; auto.
    now apply lower_char_ascii.
Qed.

Lemma lower_pdf (ext : str) :
  lower ext = u "pdf" <->
  exists p d f, ext = [p; d; f]
                /\ (p = Re.ch "p" \/ p = Re.ch "P")
                /\ (d = Re.ch "d" \/ d = Re.ch "D")
                /\ (f = Re.ch "f" \/ f = Re.ch "F").
Proof.
  split.
  - change (u "pdf") with [112; 100; 102]. intros H.
    apply lower_cons_ascii in H; [|reflexivity|discriminate].
    destruct H as [p [s1 [-> [Hp H]]]].
    apply lower_cons_ascii in H; [|reflexivity|discriminate].
    destruct H as [d [s2 [-> [Hd H]]]].
    apply lower_cons_ascii in H; [|reflexivity|discriminate].
    destruct H as [f [s3 [-> [Hf H]]]].
    apply lower_nil in H. subst s3. exists p, d, f. auto.
  - intros [p [d [f [-> [[-> | ->] [[-> | ->] [-> | ->]]]]]]]; reflexivity.
Qed.

(** The index 1 is read only when the name has a dot, and then [rsplit] has
    returned two parts. *)
Lemma allowed_file_devuelve (name : str) :
  exists b, allowed_file name = Some b.
Proof.
  unfold allowed_file. destruct (contains (u ".") name) eqn:E; [|eauto].
  apply (contains_char 46) in E.
  destruct (ultimo_separador _ _ E) as [base [ext [-> Hext]]].
  change (Re.ch ".") with 46. rewrite (rsplit1_app _ _ _ Hext).
  cbn [nth_error]. eauto.
Qed.

Lemma allowed_file_true_iff (name : str) :
  allowed_file name = Some true <-> termina_en_pdf name.
Proof.
  unfold termina_en_pdf. change (Re.ch ".") with 46. split.
  - unfold allowed_file. destruct (contains (u ".") name) eqn:E; [|discriminate].
    apply (contains_char 46) in E.
    destruct (ultimo_separador _ _ E) as [base [ext [-> Hext]]].
    change (Re.ch ".") with 46. rewrite (rsplit1_app _ _ _ Hext).
    cbn [nth_error ALLOWED_EXTENSIONS existsb]. rewrite orb_false_r.
    intros [= H]. apply str_eqb_eq, lower_pdf in H.
    destruct H as [p [d [f [-> H]]]]. exists base, p, d, f. auto.
  - intros [base [p [d [f [-> H]]]]].
    assert (Hext : ~ In 46 [p; d; f]).
    { destruct H as [[-> | ->] [[-> | ->] [-> | ->]]]; cbn; intuition discriminate. }
    unfold allowed_file.
    match goal with
    | |- context [contains ?a ?b] => assert (Hdot : contains a b = true)
    end.
    { apply (contains_char 46), in_or_app. right. now left. }
    rewrite Hdot.
    change (Re.ch ".") with 46. rewrite (rsplit1_app _ _ _ Hext).
    cbn [nth_error ALLOWED_EXTENSIONS existsb]. rewrite orb_false_r.
    f_equal. apply str_eqb_eq, lower_pdf. exists p, d, f. auto.
Qed.

(** X1.  [allowed_file] never raises [IndexError], and it accepts exactly
    the names that end in a dot followed by "pdf" in any case of its
    letters: what counts is the text after the last dot. *)
Theorem allowed_file_pdf (name : str) :
  exists b,
    allowed_file name = Some b
    /\ (b = true <-> termina_en_pdf name)
    /\ (b = false <-> ~ termina_en_pdf name).
Proof.
  destruct (allowed_file_devuelve name) as [b Hb]. exists b.
  split; [exact Hb|].
  assert (Ht : b = true <-> termina_en_pdf name).
  { rewrite <- allowed_file_true_iff, Hb. split; congruence. }
  split; [exact Ht|].
  rewrite <- Ht. destruct b; split; congruence.
Qed.

(** ** The handler *)



(** ** The name of a section *)

Lemma no_letra_compilado :
  Re.compile no_letra
  = Some (Re.Seq (Re.Cls true [ Re.Range 97 122; Re.Range 65 90; Re.One 225;
                                Re.One 233; Re.One 237; Re.One 243;
                                Re.One 250; Re.One 252; Re.One 241 ])
                 Re.Eps).
Proof. vm_compute. reflexivity. Qed.

Lemma es_letra_clase (c : char) :
  Re.in_class true [ Re.Range 97 122; Re.Range 65 90; Re.One 225; Re.One 233;
                     Re.One 237; Re.One 243; Re.One 250; Re.One 252;
                     Re.One 241 ] c
  = negb (es_letra c).
Proof.
  unfold es_letra, Re.in_class.
  replace (u "áéíóúüñ") with [225; 233; 237; 243; 250; 252; 241]
    by (vm_compute; reflexivity).
  change (Re.ch "a") with 97. change (Re.ch "z") with 122.
  change (Re.ch "A") with 65. change (Re.ch "Z") with 90.
  cbn [existsb Re.in_item xorb]. rewrite !orb_false_r, !orb_assoc. reflexivity.
Qed.

(** Substitution by a pattern that is one character set goes character by
    character. *)
Lemma sub_from_clase (negated : bool) (items : list Re.item) (repl s : str) :
  forall (fuel : nat) prev,
    (length s < fuel)%nat ->
    Re.sub_from fuel (Re.Seq (Re.Cls negated items) Re.Eps) repl prev s
    = flat_map (fun c => if Re.in_class negated items c then repl else [c]) s.
Proof.
  induction s as [|c s IH]; intros fuel prev Hfuel;
    (destruct fuel as [|fuel]; [cbn in Hfuel; lia|]).
  - reflexivity.
  - cbn [Re.sub_from Re.rmatch flat_map].
    destruct (Re.in_class negated items c).
    + replace (Nat.ltb (length s) (length (c :: s))) with true
        by (symmetry; apply Nat.ltb_lt; cbn; lia).
      rewrite IH by (cbn in Hfuel; lia). reflexivity.
    + rewrite IH by (cbn in Hfuel; lia). reflexivity.
Qed.

Lemma sanear_nombre (line : str) : sanear line = nombre_de line.
Proof.
  unfold sanear, Re.sub. rewrite no_letra_compilado. cbn [valor].
  rewrite sub_from_clase by lia. unfold nombre_de.
  induction line as [|c line IH]; [reflexivity|].
  cbn [flat_map map]. rewrite IH, es_letra_clase.
  now destruct (es_letra c).
Qed.

Lemma nombre_de_fijo (line : str) :
  nombre_de line = line <-> Forall (fun c => es_letra c = true \/ c = SP) line.
Proof.
  unfold nombre_de. induction line as [|c line IH]; cbn [map].
  - split; [constructor | reflexivity].
  - split.
    + intros [= Hc Hl]. constructor; [|now apply IH].
      destruct (es_letra c); auto.
    + intros H. inversion H as [|? ? Hc Hl]; subst. f_equal; [|now apply IH].
      destruct (es_letra c) eqn:E; [reflexivity|].
      destruct Hc as [Hc|Hc]; [discriminate | now symmetry].
Qed.

(** X3.  The section name that [re.sub] makes of a heading line has the
    length of the line: each letter of the set [a-zA-Záéíóúüñ] is kept in its
    place and every other character is replaced by one space.  The name is
    the line itself exactly when the line has only such letters and
    spaces. *)
Theorem nombre_de_seccion (line : str) :
  Re.sub no_letra [SP] line = Ok (nombre_de line)
  /\ length (nombre_de line) = length line
  /\ Forall (fun c => es_letra c = true \/ c = SP) (nombre_de line)
  /\ (nombre_de line = line
      <-> Forall (fun c => es_letra c = true \/ c = SP) line).
Proof.
  split; [rewrite sub_no_letra; f_equal; apply sanear_nombre|].
  split; [apply length_map|].
  split; [|apply nombre_de_fijo].
  unfold nombre_de. apply Forall_forall. intros x Hx.
  apply in_map_iff in Hx. destruct Hx as [c [<- _]].
  destruct (es_letra c) eqn:E; auto.
Qed.

(** ** What a match of the table pattern shows *)

Lemma rmatch_literal_inv {A : Type} (w : str) (r : Re.regex) prev (s : str)
  (k : option char -> str -> option A) (x : A) :
  Re.rmatch (literal w r) prev s k = Some x ->
  exists s', s = w ++ s' /\ Re.rmatch r (tras prev w) s' k = Some x.
Proof.
  revert prev s. induction w as [|c w IH]; intros prev s H.
  - exists s. split; [reflexivity | exact H].
  - cbn [literal fold_right Re.rmatch] in H.
    destruct s as [|d s]; [discriminate|].
    destruct (c =? d) eqn:E; [|discriminate].
    apply N.eqb_eq in E. subst d.
    destruct (IH _ _ H) as [s' [-> H']]. exists s'. split; [reflexivity | exact H'].
Qed.

Lemma star_any_inv {A : Type} (k : option char -> str -> option A) (x : A) :
  forall (fuel : nat) prev (s : str),
    Re.star_rounds (Re.rmatch Re.Any) k fuel prev s = Some x ->
    exists mid s', s = mid ++ s' /\ ~ In LF mid /\ k (tras prev mid) s' = Some x.
Proof.
  induction fuel as [|fuel IH]; intros prev s H.
  - exists [], s. cbn [Re.star_rounds] in H. simpl. tauto.
  - rewrite star_rounds_S in H.
    destruct s as [|c s].
    + cbn [Re.rmatch Re.orelse] in H. exists [], []. simpl. tauto.
    + rewrite rmatch_any_cons in H. destruct (c =? LF) eqn:Ec.
      * cbn [Re.orelse] in H. exists [], (c :: s). simpl. tauto.
      * destruct (Nat.ltb (length s) (length (c :: s)));
          [|cbn [Re.orelse] in H; exists [], (c :: s); simpl; tauto].
        destruct (Re.star_rounds (Re.rmatch Re.Any) k fuel (Some c) s) as [y|] eqn:Er;
          cbn [Re.orelse] in H.
        -- injection H as ->. destruct (IH _ _ Er) as [mid [s' [-> [Hmid Hk]]]].
           exists (c :: mid), s'. split; [reflexivity|]. split; [|exact Hk].
           intros [Hc|Hin]; [|contradiction].
           apply N.eqb_neq in Ec. congruence.
        -- exists [], (c :: s). simpl. tauto.
Qed.

Lemma search_from_inv (r : Re.regex) (s : str) :
  forall prev,
    Re.search_from r prev s = true ->
    exists pre s' x,
      s = pre ++ s' /\ Re.rmatch r (tras prev pre) s' (fun _ _ => Some tt) = Some x.
Proof.
  induction s as [|c s IH]; intros prev H; cbn [Re.search_from] in H.
  - destruct (Re.rmatch r prev [] (fun _ _ => Some tt)) as [x|] eqn:E;
      [|discriminate].
    exists [], [], x. auto.
  - destruct (Re.rmatch r prev (c :: s) (fun _ _ => Some tt)) as [x|] eqn:E.
    + exists [], (c :: s), x. auto.
    + destruct (IH _ H) as [pre [s' [x [-> Hx]]]].
      exists (c :: pre), s', x. auto.
Qed.

Lemma es_tabla_inv (line : str) : es_tabla line = true -> fichas_en_orden line.
Proof.
  unfold es_tabla, Re.search. rewrite tabla_patron_compilado. cbn [valor].
  intros H. apply search_from_inv in H. destruct H as [a [s [x [-> H]]]].
  cbn [Re.rmatch] in H.
  apply rmatch_literal_inv in H. destruct H as [s1 [-> H]].
  cbn [Re.rmatch] in H. apply star_any_inv in H.
  destruct H as [b [s2 [-> [_ H]]]].
  apply rmatch_literal_inv in H. destruct H as [s3 [-> H]].
  cbn [Re.rmatch] in H. apply star_any_inv in H.
  destruct H as [c [s4 [-> [_ H]]]].
  apply rmatch_literal_inv in H. destruct H as [s5 [-> H]].
  cbn [Re.rmatch] in H. apply star_any_inv in H.
  destruct H as [d [s6 [-> [_ H]]]].
  apply rmatch_literal_inv in H. destruct H as [e [-> _]].
  exists a, b, c, d, e. reflexivity.
Qed.

(** X4.  On a line without a line feed, the table pattern matches exactly
    when the line contains "variable", "dimensiones", "indicadores" and
    "unidad de medida" in this order, each after the end of the one
    before. *)
Theorem tabla_patron_exacto (line : str) :
  ~ In LF line ->
  (Re.search tabla_patron line = Ok true <-> fichas_en_orden line).
Proof.
  intros Hlf. rewrite search_tabla. split.
  - intros [= H]. now apply es_tabla_inv.
  - intros H. f_equal. now apply es_tabla_en_orden.
Qed.

Lemma tabla_patron_exacto_witness :
  Re.search tabla_patron (u "variables, dimensiones e indicadores; unidad de medida")
  = Ok true
  <-> fichas_en_orden (u "variables, dimensiones e indicadores; unidad de medida").
Proof.
  apply tabla_patron_exacto. vm_compute. intuition discriminate.
Defined.

(** ** Which lines are headings *)

Lemma rmatch_prefijo {A : Type} (r : Re.regex) :
  forall prev (s : str) (k : option char -> str -> option A) (x : A),
    Re.rmatch r prev s k = Some x -> startswith (prefijo r) s = true.
Proof.
  induction r as [|c| |negated items| |r1 IH1 r2 IH2|r IH|r IH];
    intros prev s k x H; try reflexivity.
  - cbn [Re.rmatch] in H. destruct s as [|d s]; [discriminate|].
    destruct (c =? d) eqn:E; [|discriminate].
    cbn [prefijo startswith]. now rewrite E.
  - destruct r1; try reflexivity.
    + cbn [Re.rmatch] in H. destruct s as [|d s]; [discriminate|].
      destruct (c =? d) eqn:E; [|discriminate].
      cbn [prefijo startswith]. rewrite E. cbn [andb]. eapply IH2, H.
    + cbn [Re.rmatch] in H. destruct (Re.at_boundary prev s); [|discriminate].
      cbn [prefijo]. eapply IH2, H.
    + cbn [Re.rmatch] in H. change (prefijo (Re.Seq (Re.Group r1) r2))
        with (prefijo (Re.Group r1)).
      eapply IH1. cbn [Re.rmatch]. exact H.
  - cbn [Re.rmatch] in H. cbn [prefijo]. eapply IH, H.
Qed.

Lemma contains_app (w pre s : str) :
  startswith w s = true -> contains w (pre ++ s) = true.
Proof.
  intros H. induction pre as [|c pre IH]; cbn [app].
  - destruct s; cbn [contains]; now rewrite H.
  - cbn [contains]. rewrite IH. apply orb_true_r.
Qed.

Lemma search_prefijo (r : Re.regex) (s : str) :
  Re.search_from r None s = true -> contains (prefijo r) s = true.
Proof.
  intros H. apply search_from_inv in H. destruct H as [pre [s' [x [-> H]]]].
  apply contains_app. eapply rmatch_prefijo, H.
Qed.

Lemma raices_de_patrones :
  Forall2 (fun patron raiz =>
             exists r, Re.compile (lower patron) = Some r /\ prefijo r = raiz)
          patrones RAICES.
Proof.
  unfold patrones, RAICES.
  repeat (constructor; [eexists; split; vm_compute; reflexivity|]).
  constructor.
Qed.

(** X5.  A heading line contains one of the ten stems "resumen", "índice",
    "introducción", "marco", "metodolog", "resultados", "conclusiones",
    "referencias", "anexos", "operacionalizaci": a line without any of them
    never opens a section by a heading pattern. *)
Theorem titulo_tiene_raiz (line : str) :
  es_titulo line = true ->
  exists raiz, In raiz RAICES /\ contains raiz line = true.
Proof.
  unfold es_titulo. generalize raices_de_patrones.
  generalize patrones, RAICES.
  induction 1 as [|patron raiz ps rs [r [Hr Hraiz]] _ IH]; cbn [existsb];
    [discriminate|].
  intros H. apply orb_prop in H. destruct H as [H|H].
  - exists raiz. split; [now left|].
    unfold Re.search in H. rewrite Hr in H. cbn [valor] in H.
    rewrite <- Hraiz. now apply search_prefijo.
  - destruct (IH H) as [raiz' [Hin Hc]]. exists raiz'. split; [now right | exact Hc].
Qed.

Lemma titulo_tiene_raiz_witness :
  exists raiz, In raiz RAICES
               /\ contains raiz (u "1. resumen ejecutivo") = true.
Proof.
  apply titulo_tiene_raiz. vm_compute. reflexivity.
Defined.











(** ** Sections of the text *)



Lemma in_set_inv (k v k0 v0 : str) (d : dict) :
  In (k, v) (Dict.set k0 v0 d) -> v = v0 \/ In (k, v) d.
Proof.
  induction d as [|[k' v'] d IH]; cbn [Dict.set].
  - intros [[= _ <-]|[]]. now left.
  - destruct (str_eqb k0 k').
    + intros [[= _ <-]|H]; [now left | right; now right].
    + intros [H|H]; [right; now left|].
      destruct (IH H); [now left | right; now right].
Qed.





(** X7.  Lines that stand before the first heading and the first header of
    the table are discarded: the text without them has the same Section
    Map. *)
Theorem preambulo_descartado (texto texto' : str) (pre rest : list str) :
  split_on LF texto = pre ++ rest ->
  split_on LF texto' = rest ->
  Forall linea_de_cuerpo pre ->
  dividir_secciones texto = dividir_secciones texto'.
Proof.
  intros H H' Hpre.
  rewrite !dividir_secciones_ok, H, H', fold_left_app.
  now rewrite (recorrido_sin_titulos _ Hpre).
Qed.

Lemma preambulo_descartado_witness :
  dividir_secciones (u "Universidad" ++ [LF] ++ u "Tesis de grado" ++ [LF]
                     ++ u "Resumen" ++ [LF] ++ u "texto")
  = dividir_secciones (u "Resumen" ++ [LF] ++ u "texto").
Proof.
  apply (preambulo_descartado _ _ [u "Universidad"; u "Tesis de grado"]
           [u "Resumen"; u "texto"]).
  - vm_compute. reflexivity.
  - vm_compute. reflexivity.
  - repeat constructor; vm_compute; reflexivity.
Defined.







(** X11.  Segmentation reads each line only through its normalized form:
    two texts whose lines agree once trimmed and lowercased have the same
    Section Map, so the case of the letters and the blanks around a line
    play no part. *)
Theorem dividir_secciones_normalizado (texto1 texto2 : str) :
  map normalizar (split_on LF texto1) = map normalizar (split_on LF texto2) ->
  dividir_secciones texto1 = dividir_secciones texto2.
Proof.
  intros H. rewrite !dividir_secciones_ok. f_equal. f_equal.
  revert H. generalize inicio.
  generalize (split_on LF texto1), (split_on LF texto2).
  induction l as [|a l IH]; intros [|b l'] st H; try discriminate;
    [reflexivity|].
  cbn [map] in H. injection H as Hab Hl. cbn [fold_left].
  replace (paso_puro st b) with (paso_puro st a)
    by (unfold paso_puro; now rewrite Hab).
  now apply IH.
Qed.

Lemma dividir_secciones_normalizado_witness :
  dividir_secciones (u "  RESUMEN" ++ [LF] ++ u "Hola Mundo  ")
  = dividir_secciones (u "resumen" ++ [LF] ++ u "hola mundo").
Proof.
  apply dividir_secciones_normalizado. vm_compute. reflexivity.
Defined.

(** ** Invariants of the Section Map *)

Lemma paso_puro_claves (lines : list str) (st : scan) (raw : str) :
  In raw lines -> claves_de_titulos lines st ->
  claves_de_titulos lines (paso_puro st raw).
Proof.
  intros Hin Hst k Hk.
  assert (Hg : Dict.has k (guardar st) = true ->
               k = OPERACIONALIZACION
               \/ exists raw, In raw lines /\ es_titulo (normalizar raw) = true
                              /\ k = sanear (normalizar raw)).
  { intros H. apply guardar_has_inv in H. apply Hst. tauto. }
  unfold paso_puro in Hk.
  destruct (es_titulo (normalizar raw)) eqn:Ht,
           (es_tabla (normalizar raw));
    cbn [negb andb secciones current_section] in Hk.
  - destruct Hk as [Hk|Hk]; [auto | left; congruence].
  - destruct Hk as [Hk|Hk]; [auto|].
    right. exists raw. repeat split; [exact Hin | exact Ht | congruence].
  - destruct Hk as [Hk|Hk]; [apply Hst; auto | left; congruence].
  - destruct (abierta (current_section st)); apply Hst; exact Hk.
Qed.

Lemma recorrido_claves (lines rest : list str) (st : scan) :
  incl rest lines -> claves_de_titulos lines st ->
  claves_de_titulos lines (fold_left paso_puro rest st).
Proof.
  revert st. induction rest as [|raw rest IH]; intros st Hincl Hst; simpl;
    [exact Hst|].
  apply IH.
  - intros x Hx. apply Hincl. now right.
  - apply paso_puro_claves; [apply Hincl; now left | exact Hst].
Qed.

Lemma esperada_no_es_tabla (s : str) :
  In s ESTRUCTURA_ESPERADA -> s <> OPERACIONALIZACION.
Proof.
  unfold ESTRUCTURA_ESPERADA. intros H.
  repeat (destruct H as [<-|H]; [vm_compute; discriminate|]).
  destruct H.
Qed.

(** X12.  Every key of the Section Map is "operacionalización de variables"
    or the name made of a heading line of the text.  So an expected section
    is reported as missing whenever no heading line has exactly its name
    once the characters other than letters are replaced by spaces. *)
Theorem claves_del_mapa (texto : str) :
  exists secs,
    dividir_secciones texto = Ok secs
    /\ (forall k, Dict.has k secs = true ->
          k = OPERACIONALIZACION
          \/ exists raw, In raw (split_on LF texto)
                         /\ es_titulo (normalizar raw) = true
                         /\ k = nombre_de (normalizar raw))
    /\ (forall s, In s ESTRUCTURA_ESPERADA ->
          (forall raw, In raw (split_on LF texto) ->
                       es_titulo (normalizar raw) = true ->
                       nombre_de (normalizar raw) <> s) ->
          In (falta_seccion s) (revisar_estructura secs)).
Proof.
  eexists. split; [apply dividir_secciones_ok|].
  assert (Hkeys : forall k,
            Dict.has k (guardar (fold_left paso_puro (split_on LF texto) inicio))
            = true ->
            k = OPERACIONALIZACION
            \/ exists raw, In raw (split_on LF texto)
                           /\ es_titulo (normalizar raw) = true
                           /\ k = nombre_de (normalizar raw)).
  { intros k Hk. apply guardar_has_inv in Hk.
    assert (Hinv : claves_de_titulos (split_on LF texto)
                     (fold_left paso_puro (split_on LF texto) inicio)).
    { apply recorrido_claves; [apply incl_refl|].
      intros k' [H|H]; discriminate H. }
    destruct (Hinv k) as [H|[raw [Hin [Ht Heq]]]]; [tauto | now left|].
    right. exists raw. rewrite <- sanear_nombre. auto. }
  split; [exact Hkeys|].
  intros s Hs Hno. apply falta_si_ausente; [exact Hs|].
  destruct (Dict.has s _) eqn:E; [exfalso | reflexivity].
  destruct (Hkeys s E) as [H|[raw [Hin [Ht Heq]]]].
  - now apply (esperada_no_es_tabla s).
  - now apply (Hno raw).
Qed.

Lemma lstrip_forma (s : str) :
  lstrip s = [] \/ exists c t, lstrip s = c :: t /\ isspace c = false.
Proof.
  induction s as [|c s IH]; cbn [lstrip]; [now left|].
  destruct (isspace c) eqn:E; [exact IH|]. right. eauto.
Qed.

Lemma lstrip_sin_espacio (c : char) (t : str) :
  isspace c = false -> lstrip (c :: t) = c :: t.
Proof. intros H. cbn [lstrip]. now rewrite H. Qed.

Lemma lstrip_idem (s : str) : lstrip (lstrip s) = lstrip s.
Proof.
  destruct (lstrip_forma s) as [-> | [c [t [-> Hc]]]]; [reflexivity|].
  now apply lstrip_sin_espacio.
Qed.

Lemma rstrip_idem (s : str) : rstrip (rstrip s) = rstrip s.
Proof. unfold rstrip. now rewrite rev_involutive, lstrip_idem. Qed.

Lemma rstrip_cabeza (c : char) (t : str) :
  isspace c = false -> exists t', rstrip (c :: t) = c :: t'.
Proof.
  intros Hc. unfold rstrip. cbn [rev].
  destruct (lstrip_app (rev t) [c] []) as [x Hx]; [exact Hc|].
  cbn [app] in Hx. rewrite Hx. exists (rev x). now rewrite rev_app_distr.
Qed.

Lemma strip_idem (s : str) : strip (strip s) = strip s.
Proof.
  unfold strip. destruct (lstrip_forma s) as [-> | [c [t [-> Hc]]]];
    [reflexivity|].
  destruct (rstrip_cabeza c t Hc) as [t' Ht]. rewrite Ht.
  rewrite (lstrip_sin_espacio _ _ Hc), <- Ht. apply rstrip_idem.
Qed.

Lemma guardar_recortados (st : scan) :
  cuerpos_recortados (secciones st) -> cuerpos_recortados (guardar st).
Proof.
  intros H. unfold guardar. destruct (current_section st) as [s|]; [|exact H].
  destruct (truthy s); [|exact H].
  intros k v Hin. apply in_set_inv in Hin. destruct Hin as [-> | Hin].
  - apply strip_idem.
  - now apply (H k).
Qed.

Lemma paso_puro_recortados (st : scan) (raw : str) :
  cuerpos_recortados (secciones st) ->
  cuerpos_recortados (secciones (paso_puro st raw)).
Proof.
  intros H. destruct (paso_puro_secciones st raw) as [-> | ->];
    [exact H | now apply guardar_recortados].
Qed.

(** X13.  Every body of the Section Map is trimmed: it has no whitespace at
    its start or at its end. *)
Theorem cuerpos_del_mapa (texto : str) :
  exists secs,
    dividir_secciones texto = Ok secs
    /\ forall k v, In (k, v) secs -> strip v = v.
Proof.
  eexists. split; [apply dividir_secciones_ok|].
  apply guardar_recortados.
  generalize (split_on LF texto). intros lines.
  assert (H : cuerpos_recortados (secciones inicio)) by (intros k v []).
  revert H. generalize inicio.
  induction lines as [|raw rest IH]; intros st H; cbn [fold_left]; [exact H|].
  apply IH, paso_puro_recortados, H.
Qed.







(** ** The validators, further *)

Lemma flat_map_condicional {X : Type} (p : X -> bool) (f : X -> str)
  (l : list X) :
  flat_map (fun x => if p x then [f x] else []) l = map f (filter p l).
Proof.
  induction l as [|x l IH]; cbn [flat_map filter]; [reflexivity|].
  rewrite IH. now destruct (p x).
Qed.

Lemma map_filter_pares (P : str * str -> bool) (F : str * str -> str)
  (seccion : str) (subs : list str) :
  map F (filter P (map (fun sub => (sub, seccion)) subs))
  = map (fun sub => F (sub, seccion)) (filter (fun sub => P (sub, seccion)) subs).
Proof.
  induction subs as [|sub subs IH]; cbn [map filter]; [reflexivity|].
  destruct (P (sub, seccion)); cbn [map]; now rewrite IH.
Qed.

Lemma revisar_subsecciones_pares (secs : dict) :
  revisar_subsecciones secs
  = map (fun par => falta_subseccion (fst par) (snd par))
        (filter (falta_sub secs) PARES).
Proof.
  rewrite revisar_subsecciones_eq. unfold PARES.
  induction SUB_SECCIONES_ESPERADAS as [|[seccion subs] entries IH];
    cbn [flat_map]; [reflexivity|].
  rewrite filter_app, map_app, <- IH. f_equal. cbn [fst snd].
  rewrite map_filter_pares. cbn [fst snd].
  rewrite <- flat_map_condicional. apply flat_map_ext. intros sub.
  unfold falta_sub. cbn [fst snd].
  destruct (str_eqb sub TABLA && Dict.has OPERACIONALIZACION secs);
    [reflexivity|].
  now destruct (contains sub (Dict.get seccion [] secs)).
Qed.

Lemma falta_subseccion_distintas :
  NoDup (map (fun par => falta_subseccion (fst par) (snd par)) PARES).
Proof.
  apply (NoDup_count_occ' str_dec). intros o Ho.
  vm_compute in Ho.
  repeat (destruct Ho as [<-|Ho]; [vm_compute; reflexivity|]).
  destruct Ho.
Qed.

Lemma NoDup_map_inj {X : Type} (f : X -> str) (l : list X) (a b : X) :
  NoDup (map f l) -> In a l -> In b l -> f a = f b -> a = b.
Proof.
  induction l as [|x l IH]; [intros _ []|].
  cbn [map]. intros Hnd Ha Hb Hab. inversion Hnd as [|? ? Hnotin Hnd']; subst.
  destruct Ha as [->|Ha], Hb as [->|Hb]; auto.
  - exfalso. apply Hnotin. rewrite Hab. now apply in_map.
  - exfalso. apply Hnotin. rewrite <- Hab. now apply in_map.
Qed.

Lemma falta_subseccion_in (secs : dict) (par : str * str) :
  In par PARES ->
  (In (falta_subseccion (fst par) (snd par)) (revisar_subsecciones secs)
   <-> falta_sub secs par = true).
Proof.
  intros Hpar. rewrite revisar_subsecciones_pares, in_map_iff. split.
  - intros [par' [Heq Hin]]. apply filter_In in Hin. destruct Hin as [Hin Hf].
    now rewrite <- (NoDup_map_inj _ _ _ _ falta_subseccion_distintas Hin Hpar Heq).
  - intros Hf. exists par. split; [reflexivity|]. now apply filter_In.
Qed.

(** X15.  [revisar_subsecciones] goes through the six expected subsections
    in the order of the table and emits one observation for each whose
    marker is no substring of the body of its parent section, the marker of
    the table being skipped when "operacionalización de variables" is a key:
    each observation once, six at most. *)
Theorem revisar_subsecciones_faltantes (secs : dict) :
  revisar_subsecciones secs
  = map (fun par => falta_subseccion (fst par) (snd par))
        (filter (falta_sub secs) PARES)
  /\ (forall par, In par PARES ->
        count_occ str_dec (revisar_subsecciones secs)
                  (falta_subseccion (fst par) (snd par))
        = if falta_sub secs par then 1%nat else 0%nat)
  /\ (length (revisar_subsecciones secs) <= 6)%nat.
Proof.
  rewrite revisar_subsecciones_pares. split; [reflexivity|]. split.
  - intros par Hpar.
    apply (count_occ_map_filter (falta_sub secs)
             (fun par => falta_subseccion (fst par) (snd par)) PARES par
             falta_subseccion_distintas Hpar).
  - rewrite length_map.
    apply (Nat.le_trans _ _ _ (filter_length_le (falta_sub secs) PARES)).
    vm_compute. repeat constructor.
Qed.

Lemma marcador_no_vacio (par : str * str) :
  In par PARES -> contains (fst par) [] = false.
Proof.
  intros H. vm_compute in H.
  repeat (destruct H as [<-|H]; [vm_compute; reflexivity|]).
  destruct H.
Qed.

(** X16.  When a parent section is no key of the Section Map, each of its
    expected subsections is reported as missing; only the marker of the
    table is spared when "operacionalización de variables" is a key. *)
Theorem subsecciones_sin_seccion (secs : dict) (sub seccion : str) :
  In (sub, seccion) PARES ->
  Dict.has seccion secs = false ->
  (sub = TABLA /\ Dict.has OPERACIONALIZACION secs = true
   /\ ~ In (falta_subseccion sub seccion) (revisar_subsecciones secs))
  \/ In (falta_subseccion sub seccion) (revisar_subsecciones secs).
Proof.
  intros Hpar Habs.
  pose proof (falta_subseccion_in secs (sub, seccion) Hpar) as Hiff.
  cbn [fst snd] in Hiff. unfold falta_sub in Hiff. cbn [fst snd] in Hiff.
  rewrite (get_absent _ _ _ Habs) in Hiff.
  replace (contains sub []) with false in Hiff
    by (symmetry; apply (marcador_no_vacio (sub, seccion) Hpar)).
  cbn [negb] in Hiff. rewrite andb_true_r in Hiff.
  destruct (str_eqb sub TABLA) eqn:Es, (Dict.has OPERACIONALIZACION secs) eqn:Eo;
    cbn [andb negb] in Hiff; try (right; now apply Hiff).
  left. apply str_eqb_eq in Es. repeat split; auto.
  intros Hin. apply Hiff in Hin. discriminate.
Qed.

Lemma subsecciones_sin_seccion_witness :
  (u "objetivos generales" = TABLA /\ Dict.has OPERACIONALIZACION [] = true
   /\ ~ In (falta_subseccion (u "objetivos generales") (u "metodología"))
           (revisar_subsecciones []))
  \/ In (falta_subseccion (u "objetivos generales") (u "metodología"))
        (revisar_subsecciones []).
Proof.
  apply subsecciones_sin_seccion.
  - vm_compute. tauto.
  - reflexivity.
Defined.

Lemma revisar_metodologia_in (secs : dict) :
  (In FALTA_DISENO (revisar_metodologia secs)
   <-> contains (u "diseño de investigación")
                (Dict.get (u "metodología") [] secs) = false)
  /\ (In FALTAN_OBJETIVOS (revisar_metodologia secs)
      <-> contains (u "objetivos generales")
                   (Dict.get (u "metodología") [] secs) = false
          /\ contains (u "objetivos específicos")
                      (Dict.get (u "metodología") [] secs) = false).
Proof.
  assert (Hne : FALTA_DISENO <> FALTAN_OBJETIVOS) by (vm_compute; discriminate).
  pose proof (metodologia_dos_mensajes FALTA_DISENO FALTAN_OBJETIVOS
                (contains (u "diseño de investigación")
                          (Dict.get (u "metodología") [] secs))
                (contains (u "objetivos generales")
                          (Dict.get (u "metodología") [] secs))
                (contains (u "objetivos específicos")
                          (Dict.get (u "metodología") [] secs)) Hne) as H.
  cbv zeta in H. unfold revisar_metodologia. cbv zeta.
  exact (conj (proj1 H) (proj1 (proj2 H))).
Qed.

Lemma falta_subseccion_metodologia (secs : dict) (sub : str) :
  In (sub, u "metodología") PARES ->
  (In (falta_subseccion sub (u "metodología")) (revisar_subsecciones secs)
   <-> contains sub (Dict.get (u "metodología") [] secs) = false).
Proof.
  intros Hpar.
  assert (Hne : str_eqb sub TABLA = false).
  { vm_compute in Hpar.
    repeat (destruct Hpar as [E|Hpar];
            [first [discriminate E
                   | injection E as <-; vm_compute; reflexivity]|]).
    destruct Hpar. }
  rewrite (falta_subseccion_in secs (sub, u "metodología") Hpar).
  unfold falta_sub. cbn [fst snd]. rewrite Hne. cbn [andb negb].
  apply negb_true_iff.
Qed.

Lemma pares_de_metodologia :
  In (u "diseño de investigación", u "metodología") PARES
  /\ In (u "objetivos generales", u "metodología") PARES
  /\ In (u "objetivos específicos", u "metodología") PARES.
Proof. vm_compute. tauto. Qed.

(** X17.  The methodology check and the subsection check read the same
    body with the same markers: the research-design observation is emitted
    exactly when the subsection "diseño de investigación" is reported, and
    the objectives observation exactly when both "objetivos generales" and
    "objetivos específicos" are reported. *)
Theorem metodologia_y_subsecciones (secs : dict) :
  (In FALTA_DISENO (revisar_metodologia secs)
   <-> In (falta_subseccion (u "diseño de investigación") (u "metodología"))
          (revisar_subsecciones secs))
  /\ (In FALTAN_OBJETIVOS (revisar_metodologia secs)
      <-> In (falta_subseccion (u "objetivos generales") (u "metodología"))
             (revisar_subsecciones secs)
          /\ In (falta_subseccion (u "objetivos específicos") (u "metodología"))
                (revisar_subsecciones secs)).
Proof.
  destruct (revisar_metodologia_in secs) as [Hd Ho].
  destruct pares_de_metodologia as [P1 [P2 P3]].
  pose proof (falta_subseccion_metodologia secs _ P1) as S1.
  pose proof (falta_subseccion_metodologia secs _ P2) as S2.
  pose proof (falta_subseccion_metodologia secs _ P3) as S3.
  split; split.
  - intros H. exact (proj2 S1 (proj1 Hd H)).
  - intros H. exact (proj2 Hd (proj1 S1 H)).
  - intros H. destruct (proj1 Ho H) as [H2 H3].
    exact (conj (proj2 S2 H2) (proj2 S3 H3)).
  - intros [H2 H3]. exact (proj2 Ho (conj (proj1 S2 H2) (proj1 S3 H3))).
Qed.

(** X18.  [revisar_estructura] emits nothing exactly when the nine expected
    names are keys of the Section Map, and nine observations at most. *)
Theorem estructura_completa (secs : dict) :
  (revisar_estructura secs = []
   <-> forall s, In s ESTRUCTURA_ESPERADA -> Dict.has s secs = true)
  /\ (length (revisar_estructura secs) <= 9)%nat.
Proof.
  rewrite revisar_estructura_eq. split.
  - split.
    + intros H s Hs. destruct (Dict.has s secs) eqn:E; [reflexivity|].
      assert (Hin : In (falta_seccion s)
                       (map falta_seccion
                          (filter (fun s => negb (Dict.has s secs))
                                  ESTRUCTURA_ESPERADA))).
      { apply in_map, filter_In. split; [exact Hs | now rewrite E]. }
      rewrite H in Hin. destruct Hin.
    + intros H.
      replace (filter (fun s => negb (Dict.has s secs)) ESTRUCTURA_ESPERADA)
        with (@nil str); [reflexivity|].
      symmetry. induction ESTRUCTURA_ESPERADA as [|s l IH]; [reflexivity|].
      cbn [filter]. rewrite (H s) by now left. cbn [negb].
      apply IH. intros s' Hs'. apply H. now right.
  - rewrite length_map.
    apply (Nat.le_trans _ _ _
             (filter_length_le (fun s => negb (Dict.has s secs))
                               ESTRUCTURA_ESPERADA)).
    vm_compute. repeat constructor.
Qed.

(** ** Headings that do not give the expected name *)

Lemma clave_de_titulo (texto k : str) :
  Dict.has k (guardar (fold_left paso_puro (split_on LF texto) inicio)) = true ->
  k = OPERACIONALIZACION
  \/ exists raw, In raw (split_on LF texto)
                 /\ es_titulo (normalizar raw) = true
                 /\ k = nombre_de (normalizar raw).
Proof.
  intros Hk. apply guardar_has_inv in Hk.
  assert (Hinv : claves_de_titulos (split_on LF texto)
                   (fold_left paso_puro (split_on LF texto) inicio)).
  { apply recorrido_claves; [apply incl_refl|].
    intros k' [H|H]; discriminate H. }
  destruct (Hinv k) as [H|[raw [Hin [Ht Heq]]]]; [tauto | now left|].
  right. exists raw. rewrite <- sanear_nombre. auto.
Qed.

Lemma clave_ausente (texto k : str) :
  k <> OPERACIONALIZACION ->
  (forall raw, In raw (split_on LF texto) ->
               es_titulo (normalizar raw) = true ->
               nombre_de (normalizar raw) <> k) ->
  Dict.has k (guardar (fold_left paso_puro (split_on LF texto) inicio)) = false.
Proof.
  intros Hop Hno.
  destruct (Dict.has k _) eqn:E; [exfalso | reflexivity].
  destruct (clave_de_titulo _ _ E) as [H|[raw [Hin [Ht Heq]]]];
    [contradiction|].
  now apply (Hno raw).
Qed.

(** X19.  The content checks read the keys "introducción" and "metodología"
    only.  When no heading line has exactly the name "introducción" (a
    numbered heading such as "1. Introducción" has not), the content list
    is the short-introduction observation, whatever the text holds; when
    none has exactly the name "metodología", the methodology list is both
    of its observations. *)
Theorem contenido_sin_titulo_exacto (texto : str) :
  exists inf,
    uploader texto = Ok inf
    /\ ((forall raw, In raw (split_on LF texto) ->
                     es_titulo (normalizar raw) = true ->
                     nombre_de (normalizar raw) <> u "introducción") ->
        observaciones_contenido inf = [INTRODUCCION_CORTA])
    /\ ((forall raw, In raw (split_on LF texto) ->
                     es_titulo (normalizar raw) = true ->
                     nombre_de (normalizar raw) <> u "metodología") ->
        observaciones_metodologia inf = [FALTA_DISENO; FALTAN_OBJETIVOS]).
Proof.
  eexists. split; [apply uploader_ok|].
  cbn [observaciones_contenido observaciones_metodologia]. split; intros Hno.
  - unfold revisar_contenido.
    rewrite get_absent; [reflexivity|].
    apply clave_ausente; [vm_compute; discriminate | exact Hno].
  - unfold revisar_metodologia.
    rewrite get_absent; [vm_compute; reflexivity|].
    apply clave_ausente; [vm_compute; discriminate | exact Hno].
Qed.

(** A numbered heading: the section is stored under a name that starts with
    blanks, so the introduction counts as absent. *)
Example introduccion_numerada :
  nombre_de (normalizar (u "1. Introducción")) = u "   introducción"
  /\ exists inf,
       uploader (u "1. Introducción" ++ [LF]
                 ++ join [SP] (repeat (u "palabra") 120))
       = Ok inf
       /\ observaciones_contenido inf = [INTRODUCCION_CORTA].
Proof.
  split; [vm_compute; reflexivity|].
  eexists. split; vm_compute; reflexivity.
Qed.
